(** * Loop Runner: the loop controller of [src/server.ts]

    A shallow embedding of the server's loop controller, its monitor
    runner, prompt builder and model listing.  The module-level variables
    of [server.ts] ([state], [config], [opencodeServer], [opencodeClient],
    [loopAbort]) are the fields of one [World] record that every function
    threads; [async] functions are computations in a small monad whose
    outcomes are "returned", "threw" and "still parked at an [await]".
    What the outside world answers at each [await] (the shell, the agent
    gateway, the HTTP requests that are served meanwhile, the time that
    passes) is given to the model as a script. *)

From Stdlib Require Import ZArith List String Ascii Bool Lia DecimalString.
Import ListNotations.
Local Open Scope string_scope.
Local Open Scope Z_scope.


(** ** Strings as JavaScript uses them *)

(** The one-character string holding a line feed. *)
Definition nl : string := String "010"%char EmptyString.

(** A string in a condition: only the empty string is falsy. *)
Definition truthy (s : string) : bool := negb (s =? "")%string.

(** [Array.prototype.join]. *)
Definition join (sep : string) (parts : list string) : string :=
  String.concat sep parts.

(** [Array.prototype.push], for its effect on the array. *)
Definition push {A : Type} (arr : list A) (x : A) : list A := arr ++ [x].

(** [Array.prototype.shift], for its effect on the array. *)
Definition shift {A : Type} (arr : list A) : list A := tl arr.

(** A whole number inside a template literal. *)
Definition show_number (n : Z) : string := NilZero.string_of_int (Z.to_int n).

(** [String.prototype.startsWith]. *)
Definition starts_with (p s : string) : bool := String.prefix p s.

(** ** Data model *)

Record LoopConfig := {
  model : string * string;            (* providerID, modelID *)
  system : string;
  user : string;
  working : string;
  persistent : string;
  monitor : option string;            (* { command } | null *)
  interval : Z;
  maxIterations : Z;
  autoApprove : bool
}.

Record HistoryEntry := {
  entry_iteration : Z;
  entry_prompt : string;
  entry_response : string;
  entry_timestamp : Z
}.

Record LoopState := {
  running : bool;
  iteration : Z;
  sessionID : option string;
  lastOutput : string;
  monitorOutput : string;
  history : list HistoryEntry
}.

(** The messages [broadcast] serialises, by their [type] field. *)
Inductive Event :=
| EvState (snapshot : LoopState)
| EvIteration (n : Z)
| EvMonitor (output : string)
| EvPrompt (prompt : string) (n : Z)
| EvResponse (response : string) (n : Z)
| EvError (message : string) (n : option Z)
| EvConfig (snapshot : LoopConfig)
| EvStopped.

(** The module-level variables, the stream of broadcast messages, what
    [console.error] printed, and the wall clock ([Date.now()]). *)
Record World := {
  state : LoopState;
  config : LoopConfig;
  opencodeServer : option string;     (* the server's url, once spawned *)
  opencodeClient : bool;              (* whether the client exists *)
  loopAbort : option bool;            (* the controller's signal.aborted *)
  published : list Event;
  console_error : list string;
  clock : Z
}.

(** The initial values of [state] and [config]. *)
Definition initial_state : LoopState :=
  {| running := false; iteration := 0; sessionID := None;
     lastOutput := ""; monitorOutput := ""; history := [] |}.

Definition initial_config : LoopConfig :=
  {| model := ("anthropic", "claude-sonnet-4-20250514");
     system := "You are a helpful assistant running in a continuous loop. You have access to working memory (cleared each iteration) and persistent memory (maintained across iterations).";
     user := "Analyze the current state and take appropriate action.";
     working := ""; persistent := ""; monitor := None;
     interval := 5000; maxIterations := 0; autoApprove := true |}.

Definition initial_world : World :=
  {| state := initial_state; config := initial_config;
     opencodeServer := None; opencodeClient := false; loopAbort := None;
     published := []; console_error := []; clock := 0 |}.

(** *** Field updates *)

Definition with_state (f : LoopState -> LoopState) (w : World) : World :=
  {| state := f (state w); config := config w;
     opencodeServer := opencodeServer w; opencodeClient := opencodeClient w;
     loopAbort := loopAbort w; published := published w;
     console_error := console_error w; clock := clock w |}.

Definition with_config (f : LoopConfig -> LoopConfig) (w : World) : World :=
  {| state := state w; config := f (config w);
     opencodeServer := opencodeServer w; opencodeClient := opencodeClient w;
     loopAbort := loopAbort w; published := published w;
     console_error := console_error w; clock := clock w |}.

Definition set_running (b : bool) (s : LoopState) : LoopState :=
  {| running := b; iteration := iteration s; sessionID := sessionID s;
     lastOutput := lastOutput s; monitorOutput := monitorOutput s;
     history := history s |}.

Definition set_iteration (n : Z) (s : LoopState) : LoopState :=
  {| running := running s; iteration := n; sessionID := sessionID s;
     lastOutput := lastOutput s; monitorOutput := monitorOutput s;
     history := history s |}.

Definition set_sessionID (id : option string) (s : LoopState) : LoopState :=
  {| running := running s; iteration := iteration s; sessionID := id;
     lastOutput := lastOutput s; monitorOutput := monitorOutput s;
     history := history s |}.

Definition set_lastOutput (out : string) (s : LoopState) : LoopState :=
  {| running := running s; iteration := iteration s; sessionID := sessionID s;
     lastOutput := out; monitorOutput := monitorOutput s;
     history := history s |}.

Definition set_monitorOutput (out : string) (s : LoopState) : LoopState :=
  {| running := running s; iteration := iteration s; sessionID := sessionID s;
     lastOutput := lastOutput s; monitorOutput := out;
     history := history s |}.

Definition set_history (h : list HistoryEntry) (s : LoopState) : LoopState :=
  {| running := running s; iteration := iteration s; sessionID := sessionID s;
     lastOutput := lastOutput s; monitorOutput := monitorOutput s;
     history := h |}.

Definition set_working (s : string) (c : LoopConfig) : LoopConfig :=
  {| model := model c; system := system c; user := user c; working := s;
     persistent := persistent c; monitor := monitor c;
     interval := interval c; maxIterations := maxIterations c;
     autoApprove := autoApprove c |}.

Definition set_persistent (s : string) (c : LoopConfig) : LoopConfig :=
  {| model := model c; system := system c; user := user c;
     working := working c; persistent := s; monitor := monitor c;
     interval := interval c; maxIterations := maxIterations c;
     autoApprove := autoApprove c |}.

Definition set_gateway (url : string) (w : World) : World :=
  {| state := state w; config := config w;
     opencodeServer := Some url; opencodeClient := true;
     loopAbort := loopAbort w; published := published w;
     console_error := console_error w; clock := clock w |}.

Definition set_loopAbort (a : option bool) (w : World) : World :=
  {| state := state w; config := config w;
     opencodeServer := opencodeServer w; opencodeClient := opencodeClient w;
     loopAbort := a; published := published w;
     console_error := console_error w; clock := clock w |}.

Definition log_error (line : string) (w : World) : World :=
  {| state := state w; config := config w;
     opencodeServer := opencodeServer w; opencodeClient := opencodeClient w;
     loopAbort := loopAbort w; published := published w;
     console_error := console_error w ++ [line]; clock := clock w |}.

Definition advance (ms : Z) (w : World) : World :=
  {| state := state w; config := config w;
     opencodeServer := opencodeServer w; opencodeClient := opencodeClient w;
     loopAbort := loopAbort w; published := published w;
     console_error := console_error w; clock := clock w + ms |}.

(** [broadcast]: every connected client is sent the message; the model
    keeps the sequence of messages sent. *)
Definition send (ev : Event) (w : World) : World :=
  {| state := state w; config := config w;
     opencodeServer := opencodeServer w; opencodeClient := opencodeClient w;
     loopAbort := loopAbort w; published := published w ++ [ev];
     console_error := console_error w; clock := clock w |}.

(** ** Requests served while the loop is parked at an [await]

    The handlers of [Bun.serve]'s [fetch] that write to the variables.
    [POST /api/start] is not among them: while [state.running] holds it
    does nothing, and after a stop it starts a second task, which this
    sequential model does not describe. *)

Record ConfigPatch := {            (* Partial<LoopConfig> *)
  p_model : option (string * string);
  p_system : option string;
  p_user : option string;
  p_working : option string;
  p_persistent : option string;
  p_monitor : option (option string);
  p_interval : option Z;
  p_maxIterations : option Z;
  p_autoApprove : option bool
}.

Inductive Request :=
| PostConfig (body : ConfigPatch)
| PostStop
| PostWorking (body : option string)
| PostPersistent (body : option string).

Definition or_else {A : Type} (o : option A) (d : A) : A :=
  match o with Some x => x | None => d end.

(** [{ ...config, ...body }]. *)
Definition merge (c : LoopConfig) (body : ConfigPatch) : LoopConfig :=
  {| model := or_else (p_model body) (model c);
     system := or_else (p_system body) (system c);
     user := or_else (p_user body) (user c);
     working := or_else (p_working body) (working c);
     persistent := or_else (p_persistent body) (persistent c);
     monitor := or_else (p_monitor body) (monitor c);
     interval := or_else (p_interval body) (interval c);
     maxIterations := or_else (p_maxIterations body) (maxIterations c);
     autoApprove := or_else (p_autoApprove body) (autoApprove c) |}.

Definition handle (w : World) (r : Request) : World :=
  match r with
  | PostConfig body =>
      let w := with_config (fun c => merge c body) w in
      send (EvConfig (config w)) w
  | PostStop =>
      let w := with_state (set_running false) w in
      set_loopAbort (option_map (fun _ => true) (loopAbort w)) w
  | PostWorking body =>
      let w := with_config (set_working (or_else body "")) w in
      send (EvConfig (config w)) w
  | PostPersistent body =>
      let w := with_config (set_persistent (or_else body "")) w in
      send (EvConfig (config w)) w
  end.

(** What happens while a task is parked: so much time passes, and these
    requests are served, in this order. *)
Record Pause := {
  elapsed : nat;
  arrivals : list Request
}.

Definition quiet : Pause := {| elapsed := 0; arrivals := [] |}.

Definition pass (p : Pause) (w : World) : World :=
  fold_left handle (arrivals p) (advance (Z.of_nat (elapsed p)) w).

(** ** The monad of [async] functions *)

Inductive Outcome (A : Type) :=
| Returned (a : A) (w : World)
| Threw (err : string) (w : World)      (* err: the error, as String(err) *)
| Parked (w : World).                   (* the script has no answer yet *)

Arguments Returned {A} a w.
Arguments Threw {A} err w.
Arguments Parked {A} w.

Definition M (A : Type) : Type := World -> Outcome A.

Definition ret {A : Type} (a : A) : M A := fun w => Returned a w.

Definition bind {A B : Type} (m : M A) (k : A -> M B) : M B :=
  fun w =>
    match m w with
    | Returned a w' => k a w'
    | Threw err w' => Threw err w'
    | Parked w' => Parked w'
    end.

Definition throw {A : Type} (err : string) : M A := fun w => Threw err w.

Definition try_catch {A : Type} (body : M A) (handler : string -> M A) : M A :=
  fun w =>
    match body w with
    | Threw err w' => handler err w'
    | other => other
    end.

(** An expression over the module-level variables. *)
Definition reads {A : Type} (f : World -> A) : M A := fun w => Returned (f w) w.

(** An assignment to them. *)
Definition update (f : World -> World) : M unit := fun w => Returned tt (f w).

(** [broadcast(...)], the message being built from the variables as they
    are at the call. *)
Definition broadcast (message : World -> Event) : M unit :=
  fun w => Returned tt (send (message w) w).

Declare Scope js_scope.
Delimit Scope js_scope with js.
Notation "x <- m ;; k" := (bind m (fun x => k))
  (at level 61, m at next level, right associativity) : js_scope.
Notation "m ;; k" := (bind m (fun _ => k))
  (at level 61, right associativity) : js_scope.
Local Open Scope js_scope.

(** The world an outcome leaves behind. *)
Definition world_of {A : Type} (o : Outcome A) : World :=
  match o with
  | Returned _ w => w
  | Threw _ w => w
  | Parked w => w
  end.

(** An awaited call into a collaborator: it resolves to a value or it
    rejects. *)
Inductive Attempt (A : Type) :=
| Resolves (a : A)
| Rejects (err : string).

Arguments Resolves {A} a.
Arguments Rejects {A} err.

Definition await {A : Type} (p : Pause) (a : Attempt A) : M A :=
  fun w =>
    match a with
    | Resolves x => Returned x (pass p w)
    | Rejects err => Threw err (pass p w)
    end.

(** The delay of [setTimeout(f, ms)], as Node documents it and Bun follows:
    a delay under 1 or over 2^31-1 is taken as 1. *)
Definition timer_delay (ms : Z) : Z :=
  if (1 <=? ms) && (ms <=? 2147483647) then ms else 1.

(** [sleep(ms)]: a timer and nothing else.  The pause's [elapsed] is how
    late the timer fires. *)
Definition sleep (ms : Z) (p : Pause) : M unit :=
  update (fun w => pass p (advance (timer_delay ms) w)).

(** ** The prompt builder and the response extractor *)

Definition fence : string := "```".

Definition buildPrompt (config : LoopConfig) (state : LoopState) : string :=
  let sections : list string := [] in
  let sections :=
    if truthy (persistent config)
    then push sections ("## Persistent Memory" ++ nl ++ persistent config)
    else sections in
  let sections :=
    if truthy (working config)
    then push sections
           ("## Working Memory (this iteration only)" ++ nl ++ working config)
    else sections in
  let sections :=
    if truthy (monitorOutput state)
    then push sections
           ("## Monitor Output" ++ nl ++ fence ++ nl ++ monitorOutput state
              ++ nl ++ fence)
    else sections in
  let sections :=
    if truthy (lastOutput state)
    then push sections ("## Previous Response" ++ nl ++ lastOutput state)
    else sections in
  let sections := push sections ("## Current Task" ++ nl ++ user config) in
  let sections :=
    push sections
      (nl ++ "---" ++ nl ++ "Iteration: " ++ show_number (iteration state)) in
  join (nl ++ nl) sections.

Record Part := {
  part_type : string;
  part_text : string
}.

Definition extractResponse (parts : list Part) : string :=
  join nl (map part_text (filter (fun p => (part_type p =? "text")%string) parts)).

(** ** What the outside world answers during one iteration *)

Record IterEnv := {
  env_shell : Attempt (string * string);      (* stdout, stderr of sh -c *)
  wait_monitor : Pause;
  env_session : Attempt (option string);      (* session.create(): data.id *)
  wait_session : Pause;
  env_prompt : Attempt (option (list Part));  (* session.prompt(): data.parts *)
  wait_prompt : Pause;
  wait_sleep : Pause
}.

(** ** The monitor runner *)

Definition runMonitor (e : IterEnv) : M unit :=
  configured <- reads (fun w => monitor (config w)) ;;
  match configured with
  | None => ret tt
  | Some command =>
      try_catch
        (r <- await (wait_monitor e) (env_shell e) ;;
         let '(output, stderr) := r in
         update (with_state (set_monitorOutput
           (output ++ (if truthy stderr
                       then nl ++ "[stderr]" ++ nl ++ stderr else "")))) ;;
         broadcast (fun w => EvMonitor (monitorOutput (state w))))
        (fun err =>
           update (with_state
             (set_monitorOutput ("Error running monitor: " ++ err))) ;;
           broadcast (fun w => EvMonitor (monitorOutput (state w))))
  end.

(** ** Starting the gateway *)

(** [boot] is what [createOpencodeServer] does: it resolves to the url of
    the spawned server or rejects.  This is one call, from its test to
    its assignments, with nothing served during its [await]; calls that
    overlap are followed in [boot_run]. *)
Definition startOpenCode (boot : Attempt string) : M unit :=
  server <- reads opencodeServer ;;
  match server with
  | Some _ => ret tt
  | None =>
      url <- await quiet boot ;;
      update (set_gateway url)
  end.

(** ** The loop *)

(** [loopAbort.signal.aborted]. *)
Definition aborted : M bool :=
  controller <- reads loopAbort ;;
  match controller with
  | Some flag => ret flag
  | None =>
      throw "TypeError: null is not an object (evaluating 'loopAbort.signal')"
  end.

(** [state.history.push(entry)], then [shift()] when the length is over
    100. *)
Definition remember (entry : HistoryEntry) (s : LoopState) : LoopState :=
  let h := push (history s) entry in
  set_history (if 100 <? Z.of_nat (List.length h) then shift h else h) s.

(** [await sleep(config.interval)]. *)
Definition pace (e : IterEnv) : M unit :=
  ms <- reads (fun w => interval (config w)) ;;
  sleep ms (wait_sleep e).

(** One pass through the body of the [while], from [state.iteration++]
    to the pacing sleep. *)
Definition iteration_body (e : IterEnv) : M unit :=
  update (with_state (fun s => set_iteration (iteration s + 1) s)) ;;
  broadcast (fun w => EvIteration (iteration (state w))) ;;
  runMonitor e ;;
  session <- await (wait_session e) (env_session e) ;;
  match session with
  | None =>
      broadcast (fun _ => EvError "Failed to create session" None) ;;
      pace e
      (* continue *)
  | Some id =>
      update (with_state (set_sessionID (Some id))) ;;
      prompt <- reads (fun w => buildPrompt (config w) (state w)) ;;
      broadcast (fun w => EvPrompt prompt (iteration (state w))) ;;
      try_catch
        (result <- await (wait_prompt e) (env_prompt e) ;;
         match result with
         | Some parts =>
             let response := extractResponse parts in
             update (with_state (set_lastOutput response)) ;;
             update (fun w => with_state (remember
               {| entry_iteration := iteration (state w);
                  entry_prompt := prompt;
                  entry_response := response;
                  entry_timestamp := clock w |}) w) ;;
             broadcast (fun w => EvResponse response (iteration (state w)))
         | None => ret tt
         end)
        (fun err =>
           broadcast (fun w => EvError err (Some (iteration (state w))))) ;;
      update (with_config (set_working "")) ;;
      broadcast (fun w => EvState (state w)) ;;
      go <- reads (fun w => running (state w)) ;;
      if go then pace e else ret tt
  end.

(** [config.maxIterations > 0 && state.iteration >= config.maxIterations]. *)
Definition ceiling_reached (w : World) : bool :=
  (0 <? maxIterations (config w))
  && (maxIterations (config w) <=? iteration (state w)).

(** [state.running && !loopAbort.signal.aborted]; [&&] does not evaluate
    its right side when the left is false. *)
Definition loop_condition : M bool :=
  go <- reads (fun w => running (state w)) ;;
  if go then stop <- aborted ;; ret (negb stop) else ret false.

(** The [while] statement.  Each iteration takes its answers from the head
    of the script; with the script used up the task stays parked. *)
Fixpoint while_loop (script : list IterEnv) : M unit :=
  go <- loop_condition ;;
  if go then
    hit <- reads ceiling_reached ;;
    if hit
    then update (with_state (set_running false))       (* break *)
    else
      match script with
      | [] => fun w => Parked w
      | e :: rest => iteration_body e ;; while_loop rest
      end
  else ret tt.

Definition runLoop (boot : Attempt string) (script : list IterEnv) : M unit :=
  client <- reads opencodeClient ;;
  (if client then ret tt else startOpenCode boot) ;;
  client <- reads opencodeClient ;;
  (if client then ret tt else throw "Error: Failed to start OpenCode") ;;
  update (with_state (set_running true)) ;;
  update (with_state (set_iteration 0)) ;;
  update (set_loopAbort (Some false)) ;;
  broadcast (fun w => EvState (state w)) ;;
  while_loop script ;;
  update (with_state (set_running false)) ;;
  broadcast (fun _ => EvStopped).

(** The handler of [POST /api/start]: [runLoop().catch(console.error)]
    unless a loop is running.  The handler does not wait for the task it
    starts; the model follows that task as far as the script goes. *)
Definition api_start (boot : Attempt string) (script : list IterEnv)
    (w : World) : World :=
  if running (state w) then w
  else
    match runLoop boot script w with
    | Threw err w' => log_error err w'
    | Returned _ w' => w'
    | Parked w' => w'
    end.

(** ** Listing the models *)

Record Provider := {
  provider_id : string;
  provider_models : option (list (string * string))   (* modelID, name *)
}.

Record ModelInfo := {
  info_providerID : string;
  info_modelID : string;
  info_name : string
}.

Definition models_of (provider : Provider) : list ModelInfo :=
  match provider_models provider with
  | Some entries =>
      map (fun '(modelID, name) =>
             {| info_providerID := provider_id provider;
                info_modelID := modelID; info_name := name |}) entries
  | None => []
  end.

(** [listing] is what [provider.list()] does: it resolves to [data.all],
    or to no data, or rejects. *)
Definition fetchModels (boot : Attempt string)
    (listing : Attempt (option (list Provider))) : M (list ModelInfo) :=
  client <- reads opencodeClient ;;
  (if client then ret tt else startOpenCode boot) ;;
  client <- reads opencodeClient ;;
  if negb client then ret []
  else
    try_catch
      (providers <- await quiet listing ;;
       match providers with
       | None => ret []
       | Some all => ret (flat_map models_of all)
       end)
      (fun _ => ret []).

(** * Auxiliary definitions for the proofs *)

(** ** A program logic for the monad

    [hoare P m Q E K]: from a world satisfying [P], [m] returns a value
    and a world satisfying [Q], or throws an error and leaves a world
    satisfying [E], or is left parked in a world satisfying [K]. *)

Definition hoare {A : Type} (P : World -> Prop) (m : M A)
    (Q : A -> World -> Prop) (E : string -> World -> Prop)
    (K : World -> Prop) : Prop :=
  forall w, P w ->
    match m w with
    | Returned a w' => Q a w'
    | Threw err w' => E err w'
    | Parked w' => K w'
    end.

Definition never : World -> Prop := fun _ => False.
Definition no_error : string -> World -> Prop := fun _ _ => False.

(** Unfold the projections and the field updates, nothing else. *)
Ltac fields :=
  cbn [state config opencodeServer opencodeClient loopAbort published
       console_error clock send with_state with_config advance set_loopAbort
       set_gateway log_error running iteration sessionID lastOutput
       monitorOutput history set_running set_iteration set_sessionID
       set_lastOutput set_monitorOutput set_history model system user working
       persistent monitor interval maxIterations autoApprove set_working
       set_persistent world_of entry_iteration entry_prompt entry_response
       entry_timestamp].

(** ** What the served requests do to the world *)

Definition is_stop (r : Request) : bool :=
  match r with PostStop => true | _ => false end.

Definition stops (reqs : list Request) : bool := existsb is_stop reqs.

(** The effect of one request on [config]. *)
Definition reconfigure (c : LoopConfig) (r : Request) : LoopConfig :=
  match r with
  | PostConfig body => merge c body
  | PostStop => c
  | PostWorking body => set_working (or_else body "") c
  | PostPersistent body => set_persistent (or_else body "") c
  end.

(** The [config] messages the requests broadcast. *)
Fixpoint notices (reqs : list Request) (c : LoopConfig) : list Event :=
  match reqs with
  | [] => []
  | r :: rest =>
      ((if is_stop r then [] else [EvConfig (reconfigure c r)])
        ++ notices rest (reconfigure c r))%list
  end.


(** ** The layout of the prompt *)

(** The layout of the prompt as the specification words it: four optional
    sections, each left out when its source text is empty, then the task
    and the iteration marker. *)

Definition section_unless_empty (render : string -> string) (source : string)
    : list string :=
  match source with
  | EmptyString => []
  | _ => [render source]
  end.

Definition persistent_section (text : string) : string :=
  "## Persistent Memory" ++ nl ++ text.

Definition working_section (text : string) : string :=
  "## Working Memory (this iteration only)" ++ nl ++ text.

Definition monitor_section (text : string) : string :=
  "## Monitor Output" ++ nl ++ fence ++ nl ++ text ++ nl ++ fence.

Definition previous_section (text : string) : string :=
  "## Previous Response" ++ nl ++ text.

Definition task_section (text : string) : string :=
  "## Current Task" ++ nl ++ text.

Definition iteration_marker (n : Z) : string :=
  nl ++ "---" ++ nl ++ "Iteration: " ++ show_number n.

Definition prompt_layout (c : LoopConfig) (s : LoopState) : list string :=
  (section_unless_empty persistent_section (persistent c)
   ++ section_unless_empty working_section (working c)
   ++ section_unless_empty monitor_section (monitorOutput s)
   ++ section_unless_empty previous_section (lastOutput s)
   ++ [task_section (user c); iteration_marker (iteration s)])%list.

(** The renderings of the four optional sections. *)
Definition optional_sections : list (string -> string) :=
  [persistent_section; working_section; monitor_section; previous_section].

(** Consecutive sections with one empty line between them. *)
Fixpoint blank_line_between (sections : list string) : string :=
  match sections with
  | [] => ""
  | [last] => last
  | first :: rest => first ++ nl ++ nl ++ blank_line_between rest
  end.


(** ** Reading the stream of messages *)

Definition is_stopped (ev : Event) : bool :=
  match ev with EvStopped => true | _ => false end.

(** How many [stopped] messages a stream holds. *)
Definition stopped_count (evs : list Event) : nat :=
  List.length (filter is_stopped evs).

(** The numbers of the [iteration] messages, in order. *)
Definition iterations_announced (evs : list Event) : list Z :=
  flat_map (fun ev => match ev with EvIteration n => [n] | _ => [] end) evs.

(** The [error] messages, in order. *)
Definition errors_reported (evs : list Event) : list (string * option Z) :=
  flat_map (fun ev => match ev with EvError m n => [(m, n)] | _ => [] end) evs.

(** ** Requests that leave a run alone *)

Definition changes_maximum (r : Request) : bool :=
  match r with
  | PostConfig body =>
      match p_maxIterations body with Some _ => true | None => false end
  | _ => false
  end.

(** Neither a stop nor a new maximum. *)
Definition calm (r : Request) : bool :=
  negb (is_stop r) && negb (changes_maximum r).

Definition calm_pause (p : Pause) : bool := forallb calm (arrivals p).

Definition calm_env (e : IterEnv) : bool :=
  calm_pause (wait_monitor e) && calm_pause (wait_session e)
  && calm_pause (wait_prompt e) && calm_pause (wait_sleep e).

(** [session.create()] resolves, with data or without. *)
Definition session_answers (e : IterEnv) : bool :=
  match env_session e with Resolves _ => true | Rejects _ => false end.

(** Both [session.create()] and [session.prompt()] resolve with data. *)
Definition succeeds (e : IterEnv) : bool :=
  match env_session e, env_prompt e with
  | Resolves (Some _), Resolves (Some _) => true
  | _, _ => false
  end.

Definition writes_working (r : Request) : bool :=
  match r with
  | PostWorking _ => true
  | PostConfig body =>
      match p_working body with Some _ => true | None => false end
  | _ => false
  end.

Definition sets_monitor (r : Request) : bool :=
  match r with
  | PostConfig body =>
      match p_monitor body with Some _ => true | None => false end
  | _ => false
  end.

Definition leaves_monitor (p : Pause) : bool :=
  forallb (fun r => negb (sets_monitor r)) (arrivals p).

(** No request served during the iteration sets [config.monitor]. *)
Definition monitor_untouched (e : IterEnv) : bool :=
  leaves_monitor (wait_monitor e) && leaves_monitor (wait_session e)
  && leaves_monitor (wait_prompt e) && leaves_monitor (wait_sleep e).

(** The prompt [p] has the monitor section made from [text] among its
    sections. *)
Definition shows_monitor (text p : string) : Prop :=
  exists before after,
    p = blank_line_between (before ++ monitor_section text :: after).

(** Since the world [w0]: no monitor command is configured, the monitor
    output is [text], and every prompt sent shows it. *)
Definition monitor_kept (text : string) (w0 w : World) : Prop :=
  monitor (config w) = None
  /\ monitorOutput (state w) = text
  /\ forall p k, In (EvPrompt p k) (published w) ->
       In (EvPrompt p k) (published w0) \/ shows_monitor text p.

(** The history holds at most 100 entries. *)
Definition bounded (w : World) : Prop :=
  (List.length (history (state w)) <= 100)%nat.

(** ** The history as a bounded queue *)

(** What the overflow check after a [push] leaves. *)
Definition capped {A : Type} (h : list A) : list A :=
  if 100 <? Z.of_nat (List.length h) then shift h else h.

(** The numbers [i+1], ..., [i+n]. *)
Definition count_from (i : Z) (n : nat) : list Z :=
  map (fun k => i + Z.of_nat k) (seq 1 n).

Definition iteration_numbers (w : World) : list Z :=
  map entry_iteration (history (state w)).

(** ** Starting a run *)

(** The client exists, or [createOpencodeServer] will resolve. *)
Definition gateway_ready (boot : Attempt string) (w : World) : bool :=
  opencodeClient w
  || match opencodeServer w, boot with
     | None, Resolves _ => true
     | _, _ => false
     end.

(** The world in which the loop of [runLoop] is entered. *)
Definition established (boot : Attempt string) (w : World) : World :=
  if opencodeClient w then w
  else match boot with
       | Resolves url => set_gateway url w
       | Rejects _ => w
       end.

Definition loop_entry (w : World) : World :=
  let w := set_loopAbort (Some false)
             (with_state (set_iteration 0)
                (with_state (set_running true) w)) in
  send (EvState (state w)) w.

(** The statements of [runLoop] after its [while]. *)
Definition loop_exit : M unit :=
  update (with_state (set_running false)) ;;
  broadcast (fun _ => EvStopped).

(** ** A run that nothing disturbs *)

(** The loop is running under the maximum [N], at iteration [i], having
    sent [k] [stopped] messages and announced the iterations [l]. *)
Definition steady (N i : Z) (k : nat) (l : list Z) (w : World) : Prop :=
  running (state w) = true
  /\ loopAbort w = Some false
  /\ maxIterations (config w) = N
  /\ iteration (state w) = i
  /\ stopped_count (published w) = k
  /\ iterations_announced (published w) = l.

(** The run has ended: not running, at iteration [i], with the same
    messages counted. *)
Definition ended (i : Z) (k : nat) (l : list Z) (w : World) : Prop :=
  running (state w) = false
  /\ iteration (state w) = i
  /\ stopped_count (published w) = k
  /\ iterations_announced (published w) = l.

(** After [n] successful iterations of a run that found the history [h0]:
    the history is what a queue of 100 places keeps of [h0] followed by
    the [n] entries pushed, and those are numbered 1 to [n]. *)
Definition queue_after (h0 : list HistoryEntry) (n : nat) (w : World) : Prop :=
  iteration (state w) = Z.of_nat n
  /\ exists new,
       List.length new = n
       /\ history (state w)
          = skipn (List.length h0 + n - 100) (h0 ++ new)
       /\ map entry_iteration new = count_from 0 n.

(** ** Working memory *)

Definition leaves_working (p : Pause) : bool :=
  forallb (fun r => negb (writes_working r)) (arrivals p).

(** No condition on the world. *)
Definition anything : World -> Prop := fun _ => True.

(** ** Errors reported and results recorded *)

(** The [error] messages sent so far are [errs], the history is [h] and
    the last output is [out]. *)
Definition record_is (errs : list (string * option Z)) (h : list HistoryEntry)
    (out : string) (i : Z) (w : World) : Prop :=
  errors_reported (published w) = errs
  /\ history (state w) = h
  /\ lastOutput (state w) = out
  /\ iteration (state w) = i.

(** ** A stop request and the pacing sleep *)

(** The reading of "a stop interrupts the sleep": with a stop request
    among those served during the sleep, the task resumes before the
    timer's delay has passed. *)
Definition stop_interrupts_sleep (e : IterEnv) (w : World) : Prop :=
  stops (arrivals (wait_sleep e)) = true ->
  clock (world_of (pace e w)) < clock w + timer_delay (interval (config w)).

(** ** Concrete worlds and scripts *)

Definition local_gateway : Attempt string := Resolves "http://127.0.0.1:4097".

Definition no_gateway : Attempt string :=
  Rejects "Error: Server exited with code 127".

Definition text_part (text : string) : Part :=
  {| part_type := "text"; part_text := text |}.

(** An iteration in which everything answers and no request arrives. *)
Definition answered (reply : string) : IterEnv :=
  {| env_shell := Resolves ("up 3 days", ""); wait_monitor := quiet;
     env_session := Resolves (Some "ses_1"); wait_session := quiet;
     env_prompt := Resolves (Some [text_part reply]); wait_prompt := quiet;
     wait_sleep := quiet |}.

(** [session.create()] comes back without data. *)
Definition session_refused : IterEnv :=
  {| env_shell := Resolves ("up 3 days", ""); wait_monitor := quiet;
     env_session := Resolves None; wait_session := quiet;
     env_prompt := Resolves None; wait_prompt := quiet;
     wait_sleep := quiet |}.

(** [session.create()] rejects. *)
Definition session_breaks : IterEnv :=
  {| env_shell := Resolves ("up 3 days", ""); wait_monitor := quiet;
     env_session := Rejects "TypeError: fetch failed"; wait_session := quiet;
     env_prompt := Resolves None; wait_prompt := quiet;
     wait_sleep := quiet |}.

(** [session.prompt()] comes back without data. *)
Definition prompt_refused : IterEnv :=
  {| env_shell := Resolves ("up 3 days", ""); wait_monitor := quiet;
     env_session := Resolves (Some "ses_1"); wait_session := quiet;
     env_prompt := Resolves None; wait_prompt := quiet;
     wait_sleep := quiet |}.

(** The shell cannot be spawned. *)
Definition shell_missing : IterEnv :=
  {| env_shell := Rejects "Error: spawn sh ENOENT"; wait_monitor := quiet;
     env_session := Resolves (Some "ses_1"); wait_session := quiet;
     env_prompt := Resolves (Some [text_part "ok"]); wait_prompt := quiet;
     wait_sleep := quiet |}.

(** A stop request is served during the pacing sleep. *)
Definition stopped_asleep : IterEnv :=
  {| env_shell := Resolves ("up 3 days", ""); wait_monitor := quiet;
     env_session := Resolves (Some "ses_1"); wait_session := quiet;
     env_prompt := Resolves (Some [text_part "ok"]); wait_prompt := quiet;
     wait_sleep := {| elapsed := 0; arrivals := [PostStop] |} |}.

(** The initial world after [POST /api/config] with a maximum. *)
Definition world_with_maximum (n : Z) : World :=
  handle initial_world
    (PostConfig
       {| p_model := None; p_system := None; p_user := None;
          p_working := None; p_persistent := None; p_monitor := None;
          p_interval := None; p_maxIterations := Some n;
          p_autoApprove := None |}).

(** The initial world after [POST /api/config] with a monitor command. *)
Definition world_with_monitor : World :=
  handle initial_world
    (PostConfig
       {| p_model := None; p_system := None; p_user := None;
          p_working := None; p_persistent := None;
          p_monitor := Some (Some "uptime"); p_interval := None;
          p_maxIterations := None; p_autoApprove := None |}).

(** The initial world after [POST /api/working]. *)
Definition world_with_notes : World :=
  handle initial_world (PostWorking (Some "check the disk first")).

(** A world whose monitor output was captured earlier and in which no
    monitor command is configured any more. *)
Definition world_with_old_output : World :=
  with_state (set_monitorOutput "up 3 days") initial_world.

(** * More of the server *)

(** ** The handler of [Bun.serve]

    What a request finds outside the variables: the page on disk, and for
    the calls it may start, what the gateway and the script answer. *)
Record Answers := {
  ans_page : Attempt string;                        (* Bun.file(...).text() *)
  ans_boot : Attempt string;                        (* createOpencodeServer *)
  ans_listing : Attempt (option (list Provider));   (* provider.list() *)
  ans_script : list IterEnv
}.

(** A request: its method, the path of its url and what [req.json()]
    gives.  The body is read as the handlers read it, by the keys of
    [LoopConfig]. *)
Record HttpRequest := {
  req_method : string;
  req_path : string;
  req_body : Attempt ConfigPatch
}.

Inductive Reply :=
| ReplyPreflight                                   (* null body, the headers *)
| ReplyPage (html : string)
| ReplyStream (s : LoopState) (c : LoopConfig)     (* the connected message *)
| ReplySnapshot (s : LoopState) (c : LoopConfig)
| ReplyModels (models : list ModelInfo)
| ReplyConfig (c : LoopConfig)                     (* { ok: true, config } *)
| ReplyOk                                          (* { ok: true } *)
| ReplyHistory (h : list HistoryEntry)
| ReplyNotFound.                                   (* status 404 *)

(** [fetch(req)], for what it does to the variables of [World] and what
    it answers.  A throw is a rejected handler.  The set [clients] is
    not among these variables: what the branch of [/api/events] does to
    it — [clients.add(controller)] and the [connected] message — is
    [subscribe] below, on the hub. *)
Definition fetch (a : Answers) (req : HttpRequest) : M Reply :=
  let path := req_path req in
  let method := req_method req in
  if (method =? "OPTIONS")%string then ret ReplyPreflight
  else if ((path =? "/") || (path =? "/index.html"))%string then
    html <- await quiet (ans_page a) ;;
    ret (ReplyPage html)
  else if (path =? "/api/events")%string then
    reads (fun w => ReplyStream (state w) (config w))
  else if (path =? "/api/state")%string then
    reads (fun w => ReplySnapshot (state w) (config w))
  else if (path =? "/api/models")%string then
    models <- fetchModels (ans_boot a) (ans_listing a) ;;
    ret (ReplyModels models)
  else if ((path =? "/api/config") && (method =? "POST"))%string then
    body <- await quiet (req_body req) ;;
    update (fun w => handle w (PostConfig body)) ;;
    reads (fun w => ReplyConfig (config w))
  else if ((path =? "/api/start") && (method =? "POST"))%string then
    update (api_start (ans_boot a) (ans_script a)) ;;
    ret ReplyOk
  else if ((path =? "/api/stop") && (method =? "POST"))%string then
    update (fun w => handle w PostStop) ;;
    ret ReplyOk
  else if ((path =? "/api/working") && (method =? "POST"))%string then
    body <- await quiet (req_body req) ;;
    update (fun w => handle w (PostWorking (p_working body))) ;;
    ret ReplyOk
  else if ((path =? "/api/persistent") && (method =? "POST"))%string then
    body <- await quiet (req_body req) ;;
    update (fun w => handle w (PostPersistent (p_persistent body))) ;;
    ret ReplyOk
  else if (path =? "/api/history")%string then
    reads (fun w => ReplyHistory (history (state w)))
  else ret ReplyNotFound.

(** ** Calls of [startOpenCode] that overlap

    [startOpenCode] has one [await], between its test of
    [opencodeServer] and its assignments.  Here a call is followed in
    its two halves, so that other calls can fall between them:
    [spawned] counts the calls of [createOpencodeServer], [waiting] the
    calls of [startOpenCode] that stand at the [await]. *)
Record Booting := {
  boot_world : World;
  spawned : nat;
  waiting : nat
}.

Inductive BootEvent :=
| Called                               (* a call of startOpenCode begins *)
| Settled (outcome : Attempt string).  (* a createOpencodeServer settles *)

(** The first half runs from the test to the [await]; the second half
    resumes one waiting call with what its [createOpencodeServer] gave:
    the assignments, or the throw, which changes no variable. *)
Definition boot_step (b : Booting) (ev : BootEvent) : Booting :=
  match ev with
  | Called =>
      match opencodeServer (boot_world b) with
      | Some _ => b                                 (* return *)
      | None =>
          {| boot_world := boot_world b;
             spawned := S (spawned b);
             waiting := S (waiting b) |}
      end
  | Settled outcome =>
      match waiting b with
      | O => b                                      (* no call is waiting *)
      | S others =>
          {| boot_world := match outcome with
                           | Resolves url => set_gateway url (boot_world b)
                           | Rejects _ => boot_world b
                           end;
             spawned := spawned b;
             waiting := others |}
      end
  end.

Definition boot_run (evs : list BootEvent) (b : Booting) : Booting :=
  fold_left boot_step evs b.

(** No call has begun. *)
Definition no_call (w : World) : Booting :=
  {| boot_world := w; spawned := 0; waiting := 0 |}.

(** The calls that begin in a schedule. *)
Definition calls (evs : list BootEvent) : nat :=
  List.length (filter (fun ev => match ev with Called => true | _ => false end)
                 evs).

(** No [createOpencodeServer] resolves in the schedule. *)
Definition none_resolves (evs : list BootEvent) : bool :=
  forallb (fun ev => match ev with
                     | Settled (Resolves _) => false
                     | _ => true
                     end) evs.

(** ** The broadcast hub

    [clients] is a set of stream controllers.  A controller takes chunks
    until its stream is closed; [enqueue] on a closed stream throws. *)

Inductive Message :=
| Connected (s : LoopState) (c : LoopConfig)
| Data (ev : Event).

Record Client := {
  client_closed : bool;
  client_queue : list Message
}.

(** [controller.enqueue(chunk)], or its failure. *)
Definition enqueue (chunk : Message) (c : Client) : option Client :=
  if client_closed c then None
  else Some {| client_closed := false;
               client_queue := client_queue c ++ [chunk] |}.

(** The loop of [broadcast] over [clients]: a controller whose [enqueue]
    throws is deleted from the set. *)
Fixpoint broadcast_to (clients : list Client) (chunk : Message) : list Client :=
  match clients with
  | [] => []
  | c :: rest =>
      match enqueue chunk c with
      | Some c' => c' :: broadcast_to rest chunk
      | None => broadcast_to rest chunk
      end
  end.

(** The [start] of the stream of [/api/events]: the new controller joins
    the set and is sent the [connected] message. *)
Definition subscribe (clients : list Client) (s : LoopState) (c : LoopConfig)
    : list Client :=
  clients ++ [{| client_closed := false; client_queue := [Connected s c] |}].

(** The stream of a client is closed by its reader. *)
Definition hang_up (c : Client) : Client :=
  {| client_closed := true; client_queue := client_queue c |}.

(** What happens to the set of clients, one step at a time. *)
Inductive HubStep :=
| Subscribes (s : LoopState) (c : LoopConfig)
| Broadcasts (ev : Event)
| HangsUp (index : nat).

Definition hub_step (clients : list Client) (step : HubStep) : list Client :=
  match step with
  | Subscribes s c => subscribe clients s c
  | Broadcasts ev => broadcast_to clients (Data ev)
  | HangsUp index =>
      match nth_error clients index with
      | Some c =>
          firstn index clients ++ hang_up c :: skipn (S index) clients
      | None => clients
      end
  end.

Definition hub_run (steps : list HubStep) : list Client :=
  fold_left hub_step steps [].

(** The events broadcast by a list of steps, in order. *)
Definition broadcasts_of (steps : list HubStep) : list Message :=
  flat_map (fun step => match step with
                        | Broadcasts ev => [Data ev]
                        | _ => []
                        end) steps.

(** ** Definitions for the further properties *)

Definition is_text (p : Part) : bool := (part_type p =? "text")%string.

(** The model entry [fetchModels] makes of a provider's model. *)
Definition model_info (provider : Provider) (entry : string * string)
    : ModelInfo :=
  {| info_providerID := provider_id provider;
     info_modelID := fst entry; info_name := snd entry |}.

(** The chunk is added to the queue of an open client. *)
Definition deliver (chunk : Message) (c : Client) : Client :=
  {| client_closed := client_closed c;
     client_queue := client_queue c ++ [chunk] |}.

(** The client subscribed at some step of [steps], was sent the
    [connected] message and then broadcasts made after that step, in
    their order: all of them if its stream is still open. *)
Definition well_served (steps : list HubStep) (cl : Client) : Prop :=
  exists before after s c received,
    steps = (before ++ Subscribes s c :: after)%list
    /\ client_queue cl = Connected s c :: received
    /\ (exists missed, broadcasts_of after = received ++ missed)%list
    /\ (client_closed cl = false -> received = broadcasts_of after).

(** ** More concrete inputs *)

(** The initial world once the gateway has been started. *)
Definition world_with_gateway : World :=
  set_gateway "http://127.0.0.1:4097" initial_world.

Definition two_providers : list Provider :=
  [ {| provider_id := "anthropic";
       provider_models := Some [("claude-sonnet-4", "Claude Sonnet 4");
                                ("claude-opus-4", "Claude Opus 4")] |};
    {| provider_id := "local"; provider_models := None |} ].

(** A [POST] request. *)
Definition post (path : string) (body : Attempt ConfigPatch) : HttpRequest :=
  {| req_method := "POST"; req_path := path; req_body := body |}.

(** The endpoints that write to the variables. *)
Definition writing_paths : list string :=
  ["/api/config"; "/api/start"; "/api/stop"; "/api/working"; "/api/persistent"].

(** The endpoints that read a body. *)
Definition body_paths : list string :=
  ["/api/config"; "/api/working"; "/api/persistent"].

(** The keys of [b] over those of [a]: what [{ ...a, ...b }] holds. *)
Definition overlay (a b : ConfigPatch) : ConfigPatch :=
  let over {A : Type} (x y : option A) : option A :=
    match y with Some v => Some v | None => x end in
  {| p_model := over (p_model a) (p_model b);
     p_system := over (p_system a) (p_system b);
     p_user := over (p_user a) (p_user b);
     p_working := over (p_working a) (p_working b);
     p_persistent := over (p_persistent a) (p_persistent b);
     p_monitor := over (p_monitor a) (p_monitor b);
     p_interval := over (p_interval a) (p_interval b);
     p_maxIterations := over (p_maxIterations a) (p_maxIterations b);
     p_autoApprove := over (p_autoApprove a) (p_autoApprove b) |}.

(** A body without any key of [LoopConfig]. *)
Definition no_keys : ConfigPatch :=
  {| p_model := None; p_system := None; p_user := None; p_working := None;
     p_persistent := None; p_monitor := None; p_interval := None;
     p_maxIterations := None; p_autoApprove := None |}.

Definition some_answers : Answers :=
  {| ans_page := Resolves "<html></html>"; ans_boot := local_gateway;
     ans_listing := Resolves (Some two_providers);
     ans_script := [answered "ok"] |}.

(** ** Conditions on a run, for the further properties *)

(** [k] [stopped] messages have been sent. *)
Definition stopped_is (k : nat) (w : World) : Prop :=
  stopped_count (published w) = k.

(** Since the run found the iterations [l0] announced, it has announced
    the iterations 1 to the current value of the counter. *)
Definition numbered (l0 : list Z) (w : World) : Prop :=
  0 <= iteration (state w)
  /\ iterations_announced (published w)
     = (l0 ++ count_from 0 (Z.to_nat (iteration (state w))))%list.

(** The two configurations agree on every field but [working]. *)
Definition same_but_working (c1 c2 : LoopConfig) : Prop :=
  model c1 = model c2 /\ system c1 = system c2 /\ user c1 = user c2
  /\ persistent c1 = persistent c2 /\ monitor c1 = monitor c2
  /\ interval c1 = interval c2 /\ maxIterations c1 = maxIterations c2
  /\ autoApprove c1 = autoApprove c2.

Definition no_arrival (p : Pause) : bool :=
  match arrivals p with [] => true | _ :: _ => false end.

(** No request is served during the iteration. *)
Definition unvisited (e : IterEnv) : bool :=
  no_arrival (wait_monitor e) && no_arrival (wait_session e)
  && no_arrival (wait_prompt e) && no_arrival (wait_sleep e).

(** The text [runMonitor] stores for what the shell did. *)
Definition monitor_text (shell : Attempt (string * string)) : string :=
  match shell with
  | Resolves (output, stderr) =>
      output ++ (if truthy stderr then nl ++ "[stderr]" ++ nl ++ stderr else "")
  | Rejects err => "Error running monitor: " ++ err
  end.

(** The [prompt] and [response] messages, in order. *)
Definition prompts_sent (evs : list Event) : list (string * Z) :=
  flat_map (fun ev => match ev with EvPrompt p n => [(p, n)] | _ => [] end) evs.

Definition responses_sent (evs : list Event) : list (string * Z) :=
  flat_map (fun ev => match ev with EvResponse r n => [(r, n)] | _ => [] end)
    evs.

(** What has been sent and recorded: the [prompt], [response] and
    [error] messages sent so far, the history, the last output, the
    session and the counter. *)
Definition ledger (ps rs : list (string * Z))
    (errs : list (string * option Z)) (h : list HistoryEntry) (out : string)
    (sid : option string) (i : Z) (w : World) : Prop :=
  prompts_sent (published w) = ps
  /\ responses_sent (published w) = rs
  /\ errors_reported (published w) = errs
  /\ history (state w) = h
  /\ lastOutput (state w) = out
  /\ sessionID (state w) = sid
  /\ iteration (state w) = i.

(** The monitor output is [text], and the [prompt] message of iteration
    [i] has been sent with a prompt that shows it. *)
Definition monitor_shown (text prompt : string) (i : Z) (w : World) : Prop :=
  shows_monitor text prompt
  /\ In (EvPrompt prompt i) (published w)
  /\ In (EvMonitor text) (published w)
  /\ monitorOutput (state w) = text.

(** No stop request is served during the iteration. *)
Definition unstopped (e : IterEnv) : bool :=
  negb (stops (arrivals (wait_monitor e)))
  && negb (stops (arrivals (wait_session e)))
  && negb (stops (arrivals (wait_prompt e)))
  && negb (stops (arrivals (wait_sleep e))).

(** Every [state] message sent since [w0] shows the loop running. *)
Definition reports_running (w0 w : World) : Prop :=
  forall s, In (EvState s) (published w) ->
    In (EvState s) (published w0) \/ running s = true.

(** The loop is going on, and has reported nothing else since [w0]. *)
Definition going (w0 w : World) : Prop :=
  running (state w) = true /\ loopAbort w = Some false
  /\ reports_running w0 w.

(** The time [runMonitor] waits for the shell: none when no command is
    configured. *)
Definition monitor_wait (e : IterEnv) (w : World) : Z :=
  match monitor (config w) with
  | Some _ => Z.of_nat (elapsed (wait_monitor e))
  | None => 0
  end.

(** The loop has been stopped, and the clock is at [c]. *)
Definition halted_at (c : Z) (w : World) : Prop :=
  running (state w) = false /\ clock w = c.

(** A stop request is served two seconds into the wait for the answer
    to the prompt. *)
Definition stopped_mid_prompt : IterEnv :=
  {| env_shell := Resolves ("up 3 days", ""); wait_monitor := quiet;
     env_session := Resolves (Some "ses_1"); wait_session := quiet;
     env_prompt := Resolves (Some [text_part "half way"]);
     wait_prompt := {| elapsed := 2000; arrivals := [PostStop] |};
     wait_sleep := {| elapsed := 7; arrivals := [] |} |}.

(** * Reasoning about the model *)

(** ** Rules of the program logic *)

Section Rules.
Context {A : Type}.
Variables (P : World -> Prop) (Q : A -> World -> Prop)
          (E : string -> World -> Prop) (K : World -> Prop).

Lemma hoare_ret (a : A) : (forall w, P w -> Q a w) -> hoare P (ret a) Q E K.
Proof. intros H w Hw. exact (H w Hw). Qed.

Lemma hoare_reads (f : World -> A) :
  (forall w, P w -> Q (f w) w) -> hoare P (reads f) Q E K.
Proof. intros H w Hw. exact (H w Hw). Qed.

Lemma hoare_throw (err : string) :
  (forall w, P w -> E err w) -> hoare P (throw err) Q E K.
Proof. intros H w Hw. exact (H w Hw). Qed.

Lemma hoare_await (p : Pause) (a : Attempt A) :
  (forall x w, a = Resolves x -> P w -> Q x (pass p w)) ->
  (forall err w, a = Rejects err -> P w -> E err (pass p w)) ->
  hoare P (await p a) Q E K.
Proof.
  intros Hok Herr w Hw. unfold await. destruct a; [apply Hok | apply Herr]; auto.
Qed.

Lemma hoare_bind {B : Type} (R : B -> World -> Prop) (m : M B)
    (k : B -> M A) :
  hoare P m R E K -> (forall b, hoare (R b) (k b) Q E K) ->
  hoare P (bind m k) Q E K.
Proof.
  intros Hm Hk w Hw. unfold bind. specialize (Hm w Hw).
  destruct (m w) as [b w'| |]; auto. exact (Hk b w' Hm).
Qed.

Lemma hoare_try_catch (E' : string -> World -> Prop) (body : M A)
    (handler : string -> M A) :
  hoare P body Q E' K -> (forall err, hoare (E' err) (handler err) Q E K) ->
  hoare P (try_catch body handler) Q E K.
Proof.
  intros Hb Hh w Hw. unfold try_catch. specialize (Hb w Hw).
  destruct (body w) as [a w'|err w'|]; auto. exact (Hh err w' Hb).
Qed.

Lemma hoare_park : (forall w, P w -> K w) -> hoare P (fun w => Parked w) Q E K.
Proof. intros H w Hw. exact (H w Hw). Qed.

End Rules.

Lemma hoare_update (P : World -> Prop) (Q : unit -> World -> Prop)
    (E : string -> World -> Prop) (K : World -> Prop) (f : World -> World) :
  (forall w, P w -> Q tt (f w)) -> hoare P (update f) Q E K.
Proof. intros H w Hw. exact (H w Hw). Qed.

Lemma hoare_broadcast (P : World -> Prop) (Q : unit -> World -> Prop)
    (E : string -> World -> Prop) (K : World -> Prop)
    (message : World -> Event) :
  (forall w, P w -> Q tt (send (message w) w)) ->
  hoare P (broadcast message) Q E K.
Proof. intros H w Hw. exact (H w Hw). Qed.

Lemma hoare_sleep (P : World -> Prop) (Q : unit -> World -> Prop)
    (E : string -> World -> Prop) (K : World -> Prop) (ms : Z) (p : Pause) :
  (forall w, P w -> Q tt (pass p (advance (timer_delay ms) w))) ->
  hoare P (sleep ms p) Q E K.
Proof. intros H w Hw. exact (H w Hw). Qed.

(** ** Running a computation step by step *)

Lemma bind_ret {A B : Type} (a : A) (k : A -> M B) (w : World) :
  bind (ret a) k w = k a w.
Proof. reflexivity. Qed.

Lemma bind_reads {A B : Type} (f : World -> A) (k : A -> M B) (w : World) :
  bind (reads f) k w = k (f w) w.
Proof. reflexivity. Qed.

Lemma bind_update {B : Type} (f : World -> World) (k : unit -> M B) (w : World) :
  bind (update f) k w = k tt (f w).
Proof. reflexivity. Qed.

Lemma bind_broadcast {B : Type} (message : World -> Event) (k : unit -> M B)
    (w : World) :
  bind (broadcast message) k w = k tt (send (message w) w).
Proof. reflexivity. Qed.

Lemma bind_throw {A B : Type} (err : string) (k : A -> M B) (w : World) :
  bind (throw err) k w = Threw err w.
Proof. reflexivity. Qed.

Lemma bind_sleep {B : Type} (ms : Z) (p : Pause) (k : unit -> M B) (w : World) :
  bind (sleep ms p) k w = k tt (pass p (advance (timer_delay ms) w)).
Proof. reflexivity. Qed.

Lemma bind_await_resolves {A B : Type} (p : Pause) (x : A) (k : A -> M B)
    (w : World) :
  bind (await p (Resolves x)) k w = k x (pass p w).
Proof. reflexivity. Qed.

Lemma bind_await_rejects {A B : Type} (p : Pause) (err : string)
    (k : A -> M B) (w : World) :
  bind (await p (Rejects err)) k w = Threw err (pass p w).
Proof. reflexivity. Qed.

Lemma bind_bind {A B C : Type} (m : M A) (k : A -> M B) (h : B -> M C)
    (w : World) :
  bind (bind m k) h w = bind m (fun a => bind (k a) h) w.
Proof. unfold bind. destruct (m w); reflexivity. Qed.

Lemma bind_try_catch {A B : Type} (body : M A) (handler : string -> M A)
    (k : A -> M B) (w : World) :
  bind (try_catch body handler) k w =
  match body w with
  | Returned a w' => k a w'
  | Threw err w' => bind (handler err) k w'
  | Parked w' => Parked w'
  end.
Proof. unfold bind, try_catch. destruct (body w); reflexivity. Qed.

Lemma try_catch_unfold {A : Type} (body : M A) (handler : string -> M A)
    (w : World) :
  try_catch body handler w =
  match body w with
  | Threw err w' => handler err w'
  | other => other
  end.
Proof. reflexivity. Qed.

Lemma run_ret {A : Type} (a : A) (w : World) : ret a w = Returned a w.
Proof. reflexivity. Qed.

Lemma run_reads {A : Type} (f : World -> A) (w : World) :
  reads f w = Returned (f w) w.
Proof. reflexivity. Qed.

Lemma run_update (f : World -> World) (w : World) :
  update f w = Returned tt (f w).
Proof. reflexivity. Qed.

Lemma run_broadcast (message : World -> Event) (w : World) :
  broadcast message w = Returned tt (send (message w) w).
Proof. reflexivity. Qed.

Lemma run_throw {A : Type} (err : string) (w : World) :
  @throw A err w = Threw err w.
Proof. reflexivity. Qed.

Lemma run_sleep (ms : Z) (p : Pause) (w : World) :
  sleep ms p w = Returned tt (pass p (advance (timer_delay ms) w)).
Proof. reflexivity. Qed.

Lemma run_await_resolves {A : Type} (p : Pause) (x : A) (w : World) :
  await p (Resolves x) w = Returned x (pass p w).
Proof. reflexivity. Qed.

Lemma run_await_rejects {A : Type} (p : Pause) (err : string) (w : World) :
  @await A p (Rejects err) w = Threw err (pass p w).
Proof. reflexivity. Qed.

Create Rewrite HintDb js.
#[local] Hint Rewrite @bind_bind @bind_ret @bind_reads @bind_update
  @bind_broadcast @bind_throw @bind_sleep @bind_await_resolves
  @bind_await_rejects @bind_try_catch @try_catch_unfold
  @run_ret @run_reads run_update run_broadcast @run_throw run_sleep
  @run_await_resolves @run_await_rejects : js.

(** Run the straight-line part of a computation. *)
Ltac step := repeat progress (autorewrite with js; cbv beta iota); fields.

(** One rule of the logic, for a goal whose pre- and postcondition are
    the same invariant. *)
Ltac invariant_rule :=
  lazymatch goal with
  | |- hoare ?I (bind _ _) (fun _ => ?I) _ _ =>
      apply hoare_bind with (R := fun _ => I); [ | intros ? ]
  | |- hoare ?I (try_catch _ _) (fun _ => ?I) _ _ =>
      apply hoare_try_catch with (E' := fun _ => I); [ | intros ? ]
  | |- hoare _ (ret _) _ _ _ => apply hoare_ret
  | |- hoare _ (reads _) _ _ _ => apply hoare_reads
  | |- hoare _ (update _) _ _ _ => apply hoare_update
  | |- hoare _ (broadcast _) _ _ _ => apply hoare_broadcast
  | |- hoare _ (sleep _ _) _ _ _ => apply hoare_sleep
  | |- hoare _ (throw _) _ _ _ => apply hoare_throw
  | |- hoare _ (await _ _) _ _ _ => apply hoare_await
  | |- hoare _ (fun w => Parked w) _ _ _ => apply hoare_park
  | |- hoare _ (match ?x with _ => _ end) _ _ _ => destruct x
  end.

Ltac invariant_walk := repeat invariant_rule.

(** ** What the served requests do to the world *)

Lemma serve_eq (reqs : list Request) (w : World) :
  fold_left handle reqs w =
  {| state := set_running (running (state w) && negb (stops reqs)) (state w);
     config := fold_left reconfigure reqs (config w);
     opencodeServer := opencodeServer w;
     opencodeClient := opencodeClient w;
     loopAbort := if stops reqs
                  then option_map (fun _ => true) (loopAbort w)
                  else loopAbort w;
     published := (published w ++ notices reqs (config w))%list;
     console_error := console_error w;
     clock := clock w |}.
Proof.
  revert w. induction reqs as [|r reqs IH]; intros w.
  - destruct w as [s c sv cl ab pub con clk]. destruct s. cbn.
    rewrite andb_true_r, app_nil_r. reflexivity.
  - cbn [fold_left]. rewrite IH. unfold stops. cbn [existsb notices].
    destruct r; cbn -[merge]; rewrite <- ?app_assoc; try reflexivity.
    destruct (stops reqs) eqn:Hs; unfold stops in Hs; rewrite Hs;
      rewrite ?andb_false_r; try reflexivity.
    destruct (loopAbort w); reflexivity.
Qed.

Section Pass.
Variables (p : Pause) (w : World).

Lemma state_pass :
  state (pass p w)
  = set_running (running (state w) && negb (stops (arrivals p))) (state w).
Proof. unfold pass. rewrite serve_eq. reflexivity. Qed.

Lemma config_pass :
  config (pass p w) = fold_left reconfigure (arrivals p) (config w).
Proof. unfold pass. rewrite serve_eq. reflexivity. Qed.

Lemma opencodeServer_pass : opencodeServer (pass p w) = opencodeServer w.
Proof. unfold pass. rewrite serve_eq. reflexivity. Qed.

Lemma opencodeClient_pass : opencodeClient (pass p w) = opencodeClient w.
Proof. unfold pass. rewrite serve_eq. reflexivity. Qed.

Lemma loopAbort_pass :
  loopAbort (pass p w)
  = if stops (arrivals p) then option_map (fun _ => true) (loopAbort w)
    else loopAbort w.
Proof. unfold pass. rewrite serve_eq. reflexivity. Qed.

Lemma published_pass :
  published (pass p w) = (published w ++ notices (arrivals p) (config w))%list.
Proof. unfold pass. rewrite serve_eq. reflexivity. Qed.

Lemma console_error_pass : console_error (pass p w) = console_error w.
Proof. unfold pass. rewrite serve_eq. reflexivity. Qed.

Lemma clock_pass : clock (pass p w) = clock w + Z.of_nat (elapsed p).
Proof. unfold pass. rewrite serve_eq. reflexivity. Qed.
End Pass.

Lemma pass_quiet (w : World) : pass quiet w = w.
Proof.
  destruct w. unfold pass, quiet, advance. cbn. f_equal. lia.
Qed.

Create Rewrite HintDb world.
#[local] Hint Rewrite state_pass config_pass opencodeServer_pass
  opencodeClient_pass loopAbort_pass published_pass console_error_pass
  clock_pass pass_quiet : world.

(** Normalise every field read of a world built from field updates and
    pauses. *)
Ltac normal := repeat progress (fields; autorewrite with world).

(** ** The prompt builder *)

Lemma join_blank_line (sections : list string) :
  join (nl ++ nl) sections = blank_line_between sections.
Proof.
  induction sections as [|x [|y rest] IH]; try reflexivity.
  change (join (nl ++ nl) (x :: y :: rest))
    with (x ++ (nl ++ nl) ++ join (nl ++ nl) (y :: rest)).
  rewrite IH. reflexivity.
Qed.

Lemma buildPrompt_sections (c : LoopConfig) (s : LoopState) :
  buildPrompt c s = blank_line_between (prompt_layout c s).
Proof.
  unfold buildPrompt. rewrite join_blank_line. f_equal.
  unfold prompt_layout.
  destruct (persistent c), (working c), (monitorOutput s), (lastOutput s);
    reflexivity.
Qed.

Lemma length_append (s t : string) :
  String.length (s ++ t) = (String.length s + String.length t)%nat.
Proof. induction s as [|c s IH]; cbn; [|rewrite IH]; reflexivity. Qed.

Lemma append_cancel (p s t : string) : p ++ s = p ++ t -> s = t.
Proof.
  induction p as [|c p IH]; cbn; intros H; [exact H|].
  injection H as H. exact (IH H).
Qed.

Lemma append_absorbed (s t : string) : s ++ t = t -> s = "".
Proof.
  intros H. apply (f_equal String.length) in H. rewrite length_append in H.
  destruct s; [reflexivity | cbn in H; lia].
Qed.

(** C4.  The prompt is a function of the configuration and the run state
    alone, and it is the sections of [prompt_layout] — persistent memory,
    working memory, fenced monitor output, previous response, each present
    exactly when its source is not empty, then always the task and the
    iteration marker — with a blank line between consecutive sections.
    No optional section ever appears with an empty body: no bare heading
    and no empty fence. *)
Theorem buildPrompt_layout (c : LoopConfig) (s : LoopState) :
  buildPrompt c s = blank_line_between (prompt_layout c s)
  /\ forall render, In render optional_sections ->
       ~ In (render "") (prompt_layout c s).
Proof.
  split; [apply buildPrompt_sections|].
  intros render Hrender Hin. unfold prompt_layout in Hin.
  unfold optional_sections in Hrender. cbn [In] in Hrender.
  destruct (persistent c), (working c), (monitorOutput s), (lastOutput s);
    cbn [section_unless_empty app In] in Hin;
    repeat (destruct Hrender as [<-|Hrender]);
    try contradiction;
    repeat (destruct Hin as [Hin|Hin];
            [first [ cbn in Hin; discriminate Hin
                   | unfold monitor_section in Hin;
                     do 4 apply append_cancel in Hin;
                     match type of Hin with
                     | ?x ++ ?t = _ => apply (append_absorbed x t) in Hin
                     end; discriminate Hin ]|]);
    contradiction.
Qed.

(** The order of the sections when every source is present, and the
    absence of the monitor section (heading and fence) when the monitor
    output is empty. *)
Example buildPrompt_all_sections :
  buildPrompt
    {| model := ("p", "m"); system := "S"; user := "T"; working := "W";
       persistent := "P"; monitor := None; interval := 5000;
       maxIterations := 0; autoApprove := true |}
    {| running := true; iteration := 3; sessionID := None; lastOutput := "R";
       monitorOutput := "M"; history := [] |}
  = "## Persistent Memory" ++ nl ++ "P" ++ nl ++ nl
    ++ "## Working Memory (this iteration only)" ++ nl ++ "W" ++ nl ++ nl
    ++ "## Monitor Output" ++ nl ++ "```" ++ nl ++ "M" ++ nl ++ "```"
    ++ nl ++ nl
    ++ "## Previous Response" ++ nl ++ "R" ++ nl ++ nl
    ++ "## Current Task" ++ nl ++ "T" ++ nl ++ nl
    ++ nl ++ "---" ++ nl ++ "Iteration: 3".
Proof. reflexivity. Qed.

Example buildPrompt_no_monitor_output :
  buildPrompt
    {| model := ("p", "m"); system := "S"; user := "T"; working := "";
       persistent := "P"; monitor := Some "ls"; interval := 5000;
       maxIterations := 0; autoApprove := true |}
    {| running := true; iteration := 12; sessionID := None; lastOutput := "";
       monitorOutput := ""; history := [] |}
  = "## Persistent Memory" ++ nl ++ "P" ++ nl ++ nl
    ++ "## Current Task" ++ nl ++ "T" ++ nl ++ nl
    ++ nl ++ "---" ++ nl ++ "Iteration: 12".
Proof. reflexivity. Qed.

(** ** The monitor runner *)

Lemma append_empty (s : string) : s ++ "" = s.
Proof. induction s as [|c s IH]; cbn; [|rewrite IH]; reflexivity. Qed.

Lemma starts_with_append (p s : string) : starts_with p (p ++ s) = true.
Proof.
  unfold starts_with. induction p as [|c p IH]; cbn.
  - destruct s; reflexivity.
  - destruct (ascii_dec c c); [exact IH | contradiction].
Qed.

(** C8.  With a monitor command configured, [runMonitor] returns — it
    never throws — whatever the shell does.  When the command ran, the
    monitor output is its standard output, followed by a block labelled
    [stderr] only when standard error is not empty; when the command
    could not be launched or read, the monitor output is a message that
    begins with "Error running monitor: ".  The output is broadcast. *)
Theorem runMonitor_output (e : IterEnv) (w : World) (command : string) :
  monitor (config w) = Some command ->
  exists w',
    runMonitor e w = Returned tt w'
    /\ match env_shell e with
       | Resolves (out, err) =>
           monitorOutput (state w')
           = if (err =? "")%string then out
             else out ++ nl ++ "[stderr]" ++ nl ++ err
       | Rejects failure =>
           monitorOutput (state w') = "Error running monitor: " ++ failure
           /\ starts_with "Error running monitor: " (monitorOutput (state w'))
              = true
       end
    /\ exists earlier,
         published w' = (earlier ++ [EvMonitor (monitorOutput (state w'))])%list.
Proof.
  intros Hm. unfold runMonitor. rewrite bind_reads, Hm.
  destruct (env_shell e) as [[out err]|failure]; step.
  - eexists; split; [reflexivity|]. fields. split.
    + unfold truthy. destruct (err =? "")%string; cbn [negb];
        [apply append_empty | reflexivity].
    + eexists; reflexivity.
  - eexists; split; [reflexivity|]. fields.
    split; [split; [reflexivity | apply starts_with_append]
           | eexists; reflexivity].
Qed.

(** ** Facts about the requests served during a pause *)

Lemma notices_config (reqs : list Request) (c : LoopConfig) (ev : Event) :
  In ev (notices reqs c) -> exists c', ev = EvConfig c'.
Proof.
  revert c. induction reqs as [|r reqs IH]; intros c; cbn [notices].
  - intros [].
  - rewrite in_app_iff. intros [H|H]; [|exact (IH _ H)].
    destruct (is_stop r); [destruct H|].
    destruct H as [<-|[]]. eexists; reflexivity.
Qed.

Lemma monitor_served (reqs : list Request) (c : LoopConfig) :
  forallb (fun r => negb (sets_monitor r)) reqs = true ->
  monitor (fold_left reconfigure reqs c) = monitor c.
Proof.
  revert c. induction reqs as [|r reqs IH]; intros c; cbn [forallb fold_left].
  - reflexivity.
  - intros H. apply andb_prop in H as [Hr H]. rewrite (IH _ H).
    destruct r as [body| | |]; try reflexivity.
    cbn in Hr |- *. destruct (p_monitor body); [discriminate | reflexivity].
Qed.

(** ** The monitor output while no monitor command is configured *)

Lemma runMonitor_unconfigured (e : IterEnv) (w : World) :
  monitor (config w) = None -> runMonitor e w = Returned tt w.
Proof. intros H. unfold runMonitor. rewrite bind_reads, H. reflexivity. Qed.

Lemma buildPrompt_shows_monitor (c : LoopConfig) (s : LoopState) :
  monitorOutput s <> "" -> shows_monitor (monitorOutput s) (buildPrompt c s).
Proof.
  intros H. rewrite buildPrompt_sections. unfold prompt_layout.
  exists (section_unless_empty persistent_section (persistent c)
            ++ section_unless_empty working_section (working c))%list.
  eexists. rewrite <- app_assoc. do 3 f_equal.
  destruct (monitorOutput s); [contradiction | reflexivity].
Qed.

Ltac monitor_kept_leaf :=
  intros; unfold monitor_kept in *; fields; autorewrite with world; fields;
  repeat match goal with
  | Hk : _ /\ _ |- _ => destruct Hk
  end;
  repeat split; auto;
  try (rewrite monitor_served by assumption; assumption);
  try (let Hin := fresh "Hin" in
       intros ? ? Hin; rewrite ?in_app_iff in Hin;
       cbn [In] in Hin; repeat (destruct Hin as [Hin|Hin]);
       first [ solve [eauto] | discriminate Hin | contradiction
             | apply notices_config in Hin as [? Hin]; discriminate Hin
             | idtac ]).

Lemma iteration_body_monitor_kept (text : string) (w0 : World) (e : IterEnv) :
  text <> "" -> monitor_untouched e = true ->
  hoare (monitor_kept text w0) (iteration_body e)
    (fun _ => monitor_kept text w0) (fun _ => monitor_kept text w0)
    (monitor_kept text w0).
Proof.
  intros Htext He. unfold monitor_untouched in He.
  apply andb_prop in He as [He Hsl]. apply andb_prop in He as [He Hpr].
  apply andb_prop in He as [Hmo Hse]. unfold leaves_monitor in *.
  unfold iteration_body, pace.
  invariant_rule; [invariant_walk; monitor_kept_leaf|].
  invariant_rule; [invariant_walk; monitor_kept_leaf|].
  invariant_rule.
  { intros w Hw. rewrite runMonitor_unconfigured by apply Hw. exact Hw. }
  invariant_rule; [invariant_walk; monitor_kept_leaf|].
  destruct b2 as [id|]; [|invariant_walk; monitor_kept_leaf].
  invariant_rule; [invariant_walk; monitor_kept_leaf|].
  apply hoare_bind
    with (R := fun prompt w => monitor_kept text w0 w /\ shows_monitor text prompt).
  { apply hoare_reads. intros w Hw. split; [exact Hw|].
    destruct Hw as (_ & <- & _). apply buildPrompt_shows_monitor. exact Htext. }
  intros prompt.
  apply hoare_bind with (R := fun _ => monitor_kept text w0).
  { apply hoare_broadcast. intros w [Hw Hshows]. monitor_kept_leaf.
    injection Hin as <- _. auto. }
  intros _. invariant_walk; monitor_kept_leaf.
Qed.

(** ** Invariants of a run *)

Lemma hoare_invariant {A : Type} (I : World -> Prop) (m : M A) :
  hoare I m (fun _ => I) (fun _ => I) I ->
  forall w, I w -> I (world_of (m w)).
Proof. intros H w Hw. specialize (H w Hw). destruct (m w); exact H. Qed.

Section RunInvariant.
Variable I : World -> Prop.
Hypothesis I_running : forall w b, I w -> I (with_state (set_running b) w).
Hypothesis I_reset : forall w, I w -> I (with_state (set_iteration 0) w).
Hypothesis I_controller : forall w a, I w -> I (set_loopAbort a w).
Hypothesis I_gateway : forall w url, I w -> I (set_gateway url w).
Hypothesis I_state : forall w, I w -> I (send (EvState (state w)) w).
Hypothesis I_stopped : forall w, I w -> I (send EvStopped w).

Lemma while_loop_invariant (script : list IterEnv) :
  (forall e, In e script ->
     hoare I (iteration_body e) (fun _ => I) (fun _ => I) I) ->
  hoare I (while_loop script) (fun _ => I) (fun _ => I) I.
Proof.
  induction script as [|e rest IH]; intros Hbody; cbn [while_loop];
    unfold loop_condition, aborted; invariant_walk; auto.
  - apply Hbody. left. reflexivity.
  - apply IH. intros e' He'. apply Hbody. right. exact He'.
Qed.

Lemma runLoop_invariant (boot : Attempt string) (script : list IterEnv) :
  (forall e, In e script ->
     hoare I (iteration_body e) (fun _ => I) (fun _ => I) I) ->
  hoare I (runLoop boot script) (fun _ => I) (fun _ => I) I.
Proof.
  intros Hbody. unfold runLoop, startOpenCode. invariant_walk; auto.
  - intros. rewrite pass_quiet. assumption.
  - intros. rewrite pass_quiet. assumption.
  - apply while_loop_invariant. exact Hbody.
Qed.
End RunInvariant.

(** C10.  While no monitor command is configured, [runMonitor] changes
    nothing: the monitor output stored earlier stays.  Consequently,
    through a whole run during which no request sets a monitor command,
    a monitor output that is not empty is still stored at the end, and
    every prompt sent during the run shows it as its monitor section. *)
Theorem monitor_output_persists (boot : Attempt string)
    (script : list IterEnv) (w : World) :
  monitor (config w) = None ->
  (forall e, runMonitor e w = Returned tt w)
  /\ (forallb monitor_untouched script = true ->
      monitorOutput (state w) <> "" ->
      let w' := world_of (runLoop boot script w) in
      monitorOutput (state w') = monitorOutput (state w)
      /\ forall p k, In (EvPrompt p k) (published w') ->
           In (EvPrompt p k) (published w)
           \/ shows_monitor (monitorOutput (state w)) p).
Proof.
  intros Hnone. split.
  - intros e. apply runMonitor_unconfigured. exact Hnone.
  - intros Hscript Htext w'.
    assert (Hkept : monitor_kept (monitorOutput (state w)) w w').
    { apply hoare_invariant with (I := monitor_kept (monitorOutput (state w)) w).
      - apply runLoop_invariant; try solve [monitor_kept_leaf].
        intros e He. apply iteration_body_monitor_kept; [exact Htext|].
        rewrite forallb_forall in Hscript. apply Hscript. exact He.
      - repeat split; auto. }
    destruct Hkept as (_ & Hout & Hprompts). split; assumption.
Qed.

(** ** Entering and leaving the loop *)

Lemma runLoop_ready (boot : Attempt string) (script : list IterEnv) (w : World) :
  gateway_ready boot w = true ->
  runLoop boot script w
  = (while_loop script ;; loop_exit) (loop_entry (established boot w)).
Proof.
  unfold gateway_ready, established, runLoop, startOpenCode, loop_exit,
    loop_entry.
  intros H. rewrite bind_reads.
  destruct (opencodeClient w) eqn:Hc.
  - step. rewrite Hc. step. reflexivity.
  - cbn [orb] in H. rewrite bind_bind, bind_reads.
    destruct (opencodeServer w); [discriminate|].
    destruct boot as [url|]; [|discriminate].
    step. rewrite pass_quiet. reflexivity.
Qed.

Lemma while_loop_idle (script : list IterEnv) (w : World) :
  running (state w) = false -> while_loop script w = Returned tt w.
Proof.
  intros H. destruct script; cbn [while_loop]; unfold loop_condition;
    rewrite bind_bind, bind_reads, H; reflexivity.
Qed.

(** ** The history is a bounded queue *)

Lemma history_remember (entry : HistoryEntry) (s : LoopState) :
  history (remember entry s) = capped (push (history s) entry).
Proof. reflexivity. Qed.

Lemma capped_length {A : Type} (h : list A) (x : A) :
  (List.length h <= 100)%nat -> (List.length (capped (push h x)) <= 100)%nat.
Proof.
  intros H. unfold capped, push, shift.
  destruct (100 <? Z.of_nat (List.length (h ++ [x]))) eqn:Hover.
  - destruct h; cbn in *; [lia|]. rewrite length_app in *. cbn in *. lia.
  - apply Z.ltb_ge in Hover. lia.
Qed.

Lemma skipn_tl {A : Type} (k : nat) (l : list A) :
  tl (skipn k l) = skipn (S k) l.
Proof.
  revert l. induction k as [|k IH]; intros [|x l]; try reflexivity.
  exact (IH l).
Qed.

(** After [n] pushes onto a history [h0] of at most 100 entries, the
    history is the last entries of [h0] followed by the pushed ones. *)
Lemma fifo_step {A : Type} (h0 new : list A) (x : A) :
  (List.length h0 <= 100)%nat ->
  capped (push (skipn (List.length h0 + List.length new - 100) (h0 ++ new)) x)
  = skipn (List.length h0 + S (List.length new) - 100) (h0 ++ new ++ [x]).
Proof.
  intros Hh0. unfold capped, push, shift.
  rewrite length_app, length_skipn, length_app. cbn [List.length].
  set (m := (List.length h0 + List.length new)%nat).
  rewrite app_assoc.
  destruct (100 <? Z.of_nat (m - (m - 100) + 1)) eqn:Hover.
  - apply Z.ltb_lt in Hover. assert (Hm : (100 <= m)%nat) by lia.
    replace (List.length h0 + S (List.length new) - 100)%nat
      with (S (m - 100)) by lia.
    rewrite (skipn_app (S (m - 100))), length_app.
    replace (S (m - 100) - (List.length h0 + List.length new))%nat with 0%nat
      by lia.
    change (skipn 0 [x]) with [x]. rewrite <- skipn_tl.
    destruct (skipn (m - 100) (h0 ++ new)) eqn:Hs; [|reflexivity].
    apply (f_equal (@List.length A)) in Hs.
    rewrite length_skipn, length_app in Hs. cbn in Hs. lia.
  - apply Z.ltb_ge in Hover. assert (Hm : (m < 100)%nat) by lia.
    replace (m - 100)%nat with 0%nat by lia.
    replace (List.length h0 + S (List.length new) - 100)%nat with 0%nat by lia.
    reflexivity.
Qed.

(** ** More rules, for scripts whose answers are known *)

Lemma hoare_bind_await_resolves {A B : Type} (P P' : World -> Prop)
    (Q : B -> World -> Prop) (E : string -> World -> Prop) (K : World -> Prop)
    (p : Pause) (x : A) (k : A -> M B) :
  (forall w, P w -> P' (pass p w)) -> hoare P' (k x) Q E K ->
  hoare P (bind (await p (Resolves x)) k) Q E K.
Proof. intros Hp Hk w Hw. rewrite bind_await_resolves. exact (Hk _ (Hp w Hw)). Qed.

Lemma hoare_bind_await_rejects {A B : Type} (P : World -> Prop)
    (Q : B -> World -> Prop) (E : string -> World -> Prop) (K : World -> Prop)
    (p : Pause) (err : string) (k : A -> M B) :
  (forall w, P w -> E err (pass p w)) ->
  hoare P (bind (await p (Rejects err)) k) Q E K.
Proof. intros Hp w Hw. rewrite bind_await_rejects. exact (Hp w Hw). Qed.

Lemma hoare_conj {A : Type} (P1 P2 : World -> Prop) (Q1 Q2 : A -> World -> Prop)
    (E1 E2 : string -> World -> Prop) (K1 K2 : World -> Prop) (m : M A) :
  hoare P1 m Q1 E1 K1 -> hoare P2 m Q2 E2 K2 ->
  hoare (fun w => P1 w /\ P2 w) m (fun a w => Q1 a w /\ Q2 a w)
    (fun err w => E1 err w /\ E2 err w) (fun w => K1 w /\ K2 w).
Proof.
  intros H1 H2 w [Hw1 Hw2]. specialize (H1 w Hw1). specialize (H2 w Hw2).
  destruct (m w); split; assumption.
Qed.

(** The walk of [invariant_rule], taking the known answer of an [await]. *)
Ltac answered_rule :=
  lazymatch goal with
  | |- hoare ?I (bind (await _ (Resolves _)) _) (fun _ => ?I) _ _ =>
      apply hoare_bind_await_resolves with (P' := I); [ | cbv beta iota ]
  | |- hoare _ (bind (await _ (Rejects _)) _) _ _ _ =>
      apply hoare_bind_await_rejects
  | _ => invariant_rule
  end.

Ltac answered_walk := repeat answered_rule.

(** ** Messages and requests of a calm pause *)

Lemma stopped_count_snoc (evs : list Event) (ev : Event) :
  stopped_count (evs ++ [ev])
  = (stopped_count evs + if is_stopped ev then 1 else 0)%nat.
Proof.
  unfold stopped_count. rewrite filter_app, length_app. cbn [filter].
  destruct (is_stopped ev); reflexivity.
Qed.

Lemma iterations_announced_snoc (evs : list Event) (ev : Event) :
  iterations_announced (evs ++ [ev])
  = (iterations_announced evs
     ++ match ev with EvIteration n => [n] | _ => [] end)%list.
Proof.
  unfold iterations_announced. rewrite flat_map_app. cbn [flat_map].
  rewrite app_nil_r. reflexivity.
Qed.

Lemma stopped_count_notices (evs : list Event) (reqs : list Request)
    (c : LoopConfig) :
  stopped_count (evs ++ notices reqs c) = stopped_count evs.
Proof.
  unfold stopped_count. rewrite filter_app, length_app.
  replace (filter is_stopped (notices reqs c)) with (@nil Event);
    [cbn; lia|].
  symmetry. revert c. induction reqs as [|r reqs IH]; intros c; [reflexivity|].
  cbn [notices]. rewrite filter_app, IH, app_nil_r.
  destruct (is_stop r); reflexivity.
Qed.

Lemma iterations_announced_notices (evs : list Event) (reqs : list Request)
    (c : LoopConfig) :
  iterations_announced (evs ++ notices reqs c) = iterations_announced evs.
Proof.
  unfold iterations_announced. rewrite flat_map_app.
  replace (flat_map _ (notices reqs c)) with (@nil Z);
    [apply app_nil_r|].
  symmetry. revert c. induction reqs as [|r reqs IH]; intros c; [reflexivity|].
  cbn [notices]. rewrite flat_map_app, IH, app_nil_r.
  destruct (is_stop r); reflexivity.
Qed.

Lemma stops_calm (p : Pause) :
  calm_pause p = true -> stops (arrivals p) = false.
Proof.
  unfold calm_pause, stops. induction (arrivals p) as [|r reqs IH];
    cbn [forallb existsb]; [reflexivity|].
  intros H. apply andb_prop in H as [Hr H]. rewrite (IH H).
  unfold calm in Hr. destruct (is_stop r); [discriminate | reflexivity].
Qed.

Lemma maxIterations_calm (p : Pause) (c : LoopConfig) :
  calm_pause p = true ->
  maxIterations (fold_left reconfigure (arrivals p) c) = maxIterations c.
Proof.
  unfold calm_pause. revert c. induction (arrivals p) as [|r reqs IH];
    intros c; cbn [forallb fold_left]; [reflexivity|].
  intros H. apply andb_prop in H as [Hr H]. rewrite (IH _ H).
  destruct r as [body| | |]; try reflexivity.
  unfold calm in Hr. cbn in Hr |- *.
  destruct (p_maxIterations body); [discriminate | reflexivity].
Qed.

Lemma calm_env_pauses (e : IterEnv) :
  calm_env e = true ->
  calm_pause (wait_monitor e) = true /\ calm_pause (wait_session e) = true
  /\ calm_pause (wait_prompt e) = true /\ calm_pause (wait_sleep e) = true.
Proof.
  unfold calm_env. intros H.
  apply andb_prop in H as [H H4]. apply andb_prop in H as [H H3].
  apply andb_prop in H as [H1 H2]. auto.
Qed.

(** ** One iteration of an undisturbed run *)

Ltac steady_leaf :=
  intros; unfold steady in *;
  repeat match goal with H : _ /\ _ |- _ => destruct H end;
  fields; autorewrite with world; fields;
  rewrite ?stops_calm by assumption;
  rewrite ?maxIterations_calm by assumption;
  rewrite ?stopped_count_notices, ?iterations_announced_notices;
  rewrite ?stopped_count_snoc, ?iterations_announced_snoc;
  cbn [is_stopped negb]; rewrite ?andb_true_r, ?app_nil_r, ?Nat.add_0_r;
  repeat split; try assumption; try congruence; try lia.

Lemma iteration_body_steady (N i : Z) (k : nat) (l : list Z) (e : IterEnv) :
  calm_env e = true -> session_answers e = true ->
  hoare (steady N i k l) (iteration_body e)
    (fun _ => steady N (i + 1) k (l ++ [i + 1])) no_error never.
Proof.
  intros Hcalm Hans. apply calm_env_pauses in Hcalm as (Hm & Hs & Hp & Hsl).
  unfold iteration_body.
  apply hoare_bind with (R := fun _ => steady N (i + 1) k l);
    [apply hoare_update; steady_leaf | intros _].
  apply hoare_bind with (R := fun _ => steady N (i + 1) k (l ++ [i + 1]));
    [apply hoare_broadcast; steady_leaf | intros _].
  unfold session_answers in Hans. unfold runMonitor, pace.
  destruct (env_session e) as [session|]; [|discriminate].
  answered_walk; steady_leaf.
Qed.

(** ** The loop of an undisturbed run *)

Lemma while_loop_head (script : list IterEnv) (w : World) :
  running (state w) = true -> loopAbort w = Some false ->
  while_loop script w
  = if ceiling_reached w
    then Returned tt (with_state (set_running false) w)
    else match script with
         | [] => Parked w
         | e :: rest => (iteration_body e ;; while_loop rest) w
         end.
Proof.
  intros Hrun Hab.
  destruct script; cbn [while_loop]; unfold loop_condition, aborted;
    rewrite !bind_bind, bind_reads, Hrun; cbv iota;
    rewrite !bind_bind, bind_reads, Hab; cbv iota;
    rewrite !bind_ret; cbn [negb]; rewrite bind_reads;
    destruct (ceiling_reached w); reflexivity.
Qed.

Lemma count_from_succ (i : Z) (n : nat) :
  count_from i (S n) = (i + 1) :: count_from (i + 1) n.
Proof.
  unfold count_from. cbn [seq map]. f_equal.
  rewrite <- seq_shift, map_map. apply map_ext. intros k. lia.
Qed.

Lemma count_from_last (i : Z) (n : nat) :
  count_from i (S n) = (count_from i n ++ [i + Z.of_nat (S n)])%list.
Proof. unfold count_from. rewrite seq_S, map_app. reflexivity. Qed.

Lemma while_loop_to_ceiling (N : Z) (script : list IterEnv) :
  0 < N ->
  forall (i : Z) (k : nat) (l : list Z),
    0 <= i <= N -> (Z.to_nat (N - i) <= List.length script)%nat ->
    forallb calm_env script = true ->
    forallb session_answers script = true ->
    hoare (steady N i k l) (while_loop script)
      (fun _ => ended N k (l ++ count_from i (Z.to_nat (N - i))))
      no_error never.
Proof.
  intros HN. induction script as [|e rest IH]; intros i k l Hi Hlen Hcalm Hans w Hw;
    pose proof Hw as (Hrun & Hab & Hmax & Hit & Hk & Hl);
    rewrite (while_loop_head _ _ Hrun Hab); unfold ceiling_reached;
    rewrite Hmax, Hit; destruct (Z.leb_spec N i) as [Hge|Hlt];
    destruct (Z.ltb_spec 0 N); try lia; cbn [andb].
  - replace (Z.to_nat (N - i)) with 0%nat by lia.
    unfold ended; fields. rewrite app_nil_r. repeat split; auto; lia.
  - cbn [List.length] in Hlen. lia.
  - replace (Z.to_nat (N - i)) with 0%nat by lia.
    unfold ended; fields. rewrite app_nil_r. repeat split; auto; lia.
  - cbn [forallb] in Hcalm, Hans.
    apply andb_prop in Hcalm as [He Hcalm]. apply andb_prop in Hans as [Ha Hans].
    pose proof (iteration_body_steady N i k l e He Ha w Hw) as Hbody.
    unfold bind. destruct (iteration_body e w) as [[] w1|err w1|w1];
      try contradiction.
    cbn [List.length] in Hlen.
    replace (Z.to_nat (N - i)) with (S (Z.to_nat (N - (i + 1)))) by lia.
    rewrite count_from_succ.
    change (l ++ (i + 1) :: count_from (i + 1) (Z.to_nat (N - (i + 1))))%list
      with (l ++ [i + 1] ++ count_from (i + 1) (Z.to_nat (N - (i + 1))))%list.
    rewrite app_assoc.
    apply (IH (i + 1) k (l ++ [i + 1])%list); auto; lia.
Qed.

Lemma while_loop_unbounded (script : list IterEnv) :
  forall (i : Z) (k : nat) (l : list Z),
    forallb calm_env script = true ->
    forallb session_answers script = true ->
    hoare (steady 0 i k l) (while_loop script)
      (fun _ => never) no_error
      (steady 0 (i + Z.of_nat (List.length script)) k
         (l ++ count_from i (List.length script))).
Proof.
  induction script as [|e rest IH]; intros i k l Hcalm Hans w Hw;
    pose proof Hw as (Hrun & Hab & Hmax & Hit & Hk & Hl);
    rewrite (while_loop_head _ _ Hrun Hab); unfold ceiling_reached;
    rewrite Hmax; cbn [Z.ltb Z.compare andb].
  - cbn [List.length count_from seq map]. rewrite app_nil_r, Z.add_0_r. exact Hw.
  - cbn [forallb] in Hcalm, Hans.
    apply andb_prop in Hcalm as [He Hcalm]. apply andb_prop in Hans as [Ha Hans].
    pose proof (iteration_body_steady 0 i k l e He Ha w Hw) as Hbody.
    unfold bind. destruct (iteration_body e w) as [[] w1|err w1|w1];
      try contradiction.
    cbn [List.length]. rewrite count_from_succ.
    change (l ++ (i + 1) :: count_from (i + 1) (List.length rest))%list
      with (l ++ [i + 1] ++ count_from (i + 1) (List.length rest))%list.
    rewrite app_assoc.
    replace (i + Z.of_nat (S (List.length rest)))
      with (i + 1 + Z.of_nat (List.length rest)) by lia.
    apply (IH (i + 1) k (l ++ [i + 1])%list); auto.
Qed.

Lemma loop_entry_steady (boot : Attempt string) (w : World) :
  steady (maxIterations (config w)) 0 (stopped_count (published w))
    (iterations_announced (published w)) (loop_entry (established boot w)).
Proof.
  unfold loop_entry, established.
  destruct (opencodeClient w); [|destruct boot]; steady_leaf.
Qed.

(** The run that nothing breaks.  A run whose gateway can be
    established, during which no stop request and no new maximum arrives
    and every session creation gets an answer: with a maximum N > 0 (and a script that answers at least
    N iterations) [runLoop] returns, having announced exactly the
    iterations 1 to N, with the counter at N and the running flag off,
    and having sent exactly one [stopped] message, the last message of
    the run; with the maximum 0 it goes through every iteration the
    script answers and is then still running, waiting at the head of
    the loop, no [stopped] message sent. *)
Theorem run_to_ceiling (boot : Attempt string) (script : list IterEnv)
    (w : World) :
  gateway_ready boot w = true ->
  forallb calm_env script = true ->
  forallb session_answers script = true ->
  let N := maxIterations (config w) in
  (0 < N -> (Z.to_nat N <= List.length script)%nat ->
   exists w',
     runLoop boot script w = Returned tt w'
     /\ running (state w') = false
     /\ iteration (state w') = N
     /\ iterations_announced (published w')
        = (iterations_announced (published w) ++ count_from 0 (Z.to_nat N))%list
     /\ stopped_count (published w') = S (stopped_count (published w))
     /\ exists earlier, published w' = (earlier ++ [EvStopped])%list)
  /\ (N = 0 ->
      exists w',
        runLoop boot script w = Parked w'
        /\ running (state w') = true
        /\ iteration (state w') = Z.of_nat (List.length script)
        /\ iterations_announced (published w')
           = (iterations_announced (published w)
              ++ count_from 0 (List.length script))%list
        /\ stopped_count (published w') = stopped_count (published w)).
Proof.
  intros Hready Hcalm Hans N.
  rewrite (runLoop_ready _ _ _ Hready).
  pose proof (loop_entry_steady boot w) as Hentry. fold N in Hentry.
  split.
  - intros HN Hlen.
    pose proof (while_loop_to_ceiling N script HN 0 _ _ ltac:(lia)
                  ltac:(rewrite Z.sub_0_r; exact Hlen) Hcalm Hans _ Hentry)
      as Hloop.
    unfold bind. destruct (while_loop script _) as [[] w1|err w1|w1];
      try contradiction.
    rewrite Z.sub_0_r in Hloop. destruct Hloop as (Hrun & Hit & Hk & Hl).
    unfold loop_exit. step. eexists; split; [reflexivity|]. fields.
    rewrite stopped_count_snoc, iterations_announced_snoc. cbn [is_stopped].
    rewrite app_nil_r. repeat split; auto; try lia.
    eexists; reflexivity.
  - intros HN. rewrite HN in Hentry.
    pose proof (while_loop_unbounded script 0 _ _ Hcalm Hans _ Hentry) as Hloop.
    unfold bind. destruct (while_loop script _) as [[] w1|err w1|w1];
      try contradiction.
    destruct Hloop as (Hrun & Hab & Hmax & Hit & Hk & Hl).
    eexists; split; [reflexivity|]. repeat split; auto.
Qed.

(** ** The run that a rejected session creation breaks *)

Ltac breaks_leaf :=
  intros;
  repeat match goal with H : _ /\ _ |- _ => destruct H end;
  fields; autorewrite with world; fields;
  repeat match goal with H : stops _ = false |- _ => rewrite H end;
  rewrite ?stopped_count_notices, ?iterations_announced_notices;
  rewrite ?stopped_count_snoc, ?iterations_announced_snoc;
  cbn [is_stopped negb]; rewrite ?andb_true_r, ?app_nil_r, ?Nat.add_0_r;
  repeat split; try assumption; try congruence; try lia.

Lemma iteration_body_session_breaks (i : Z) (k : nat) (l : list Z)
    (e : IterEnv) (err : string) :
  env_session e = Rejects err ->
  stops (arrivals (wait_monitor e)) = false ->
  stops (arrivals (wait_session e)) = false ->
  hoare (fun w => running (state w) = true /\ iteration (state w) = i
                  /\ stopped_count (published w) = k
                  /\ iterations_announced (published w) = l)
    (iteration_body e) (fun _ => never)
    (fun err' w => err' = err
                   /\ running (state w) = true /\ iteration (state w) = i + 1
                   /\ stopped_count (published w) = k
                   /\ iterations_announced (published w) = (l ++ [i + 1])%list)
    never.
Proof.
  intros Hsession Hm Hs.
  set (broken := fun w => running (state w) = true
                          /\ iteration (state w) = i + 1
                          /\ stopped_count (published w) = k
                          /\ iterations_announced (published w)
                             = (l ++ [i + 1])%list).
  unfold iteration_body. rewrite Hsession.
  apply hoare_bind
    with (R := fun _ w => running (state w) = true
                          /\ iteration (state w) = i + 1
                          /\ stopped_count (published w) = k
                          /\ iterations_announced (published w) = l);
    [apply hoare_update; breaks_leaf | intros _].
  apply hoare_bind with (R := fun _ => broken);
    [apply hoare_broadcast; unfold broken; breaks_leaf | intros _].
  apply hoare_bind with (R := fun _ => broken);
    [unfold runMonitor; answered_walk; unfold broken; breaks_leaf | intros _].
  apply hoare_bind_await_rejects. intros w Hw.
  split; [reflexivity | revert w Hw; unfold broken; breaks_leaf].
Qed.

Lemma while_loop_through (N : Z) (done tail : list IterEnv) :
  forall (i : Z) (k : nat) (l : list Z),
    0 <= i ->
    (0 < N -> i + Z.of_nat (List.length done) <= N) ->
    forallb calm_env done = true ->
    forallb session_answers done = true ->
    forall w, steady N i k l w ->
      exists w1,
        steady N (i + Z.of_nat (List.length done)) k
          (l ++ count_from i (List.length done)) w1
        /\ while_loop (done ++ tail) w = while_loop tail w1.
Proof.
  induction done as [|e rest IH]; intros i k l Hi HN Hcalm Hans w Hw.
  - exists w. cbn [List.length count_from seq map app].
    rewrite app_nil_r, Z.add_0_r. split; [exact Hw | reflexivity].
  - pose proof Hw as (Hrun & Hab & Hmax & Hit & Hk & Hl).
    cbn [List.length] in HN. cbn [app].
    rewrite (while_loop_head _ _ Hrun Hab). unfold ceiling_reached.
    rewrite Hmax, Hit.
    destruct (Z.ltb_spec 0 N); destruct (Z.leb_spec N i); cbn [andb];
      try lia.
    all: cbn [forallb] in Hcalm, Hans;
      apply andb_prop in Hcalm as [He Hcalm];
      apply andb_prop in Hans as [Ha Hans];
      pose proof (iteration_body_steady N i k l e He Ha w Hw) as Hbody;
      unfold bind; destruct (iteration_body e w) as [[] w1|err w1|w1];
      try contradiction;
      destruct (IH (i + 1) k (l ++ [i + 1])%list ltac:(lia) ltac:(lia)
                  Hcalm Hans w1 Hbody) as (w2 & Hsteady & Hloop);
      exists w2; (split; [|exact Hloop]);
      cbn [List.length]; rewrite count_from_succ;
      change (l ++ (i + 1) :: count_from (i + 1) (List.length rest))%list
        with (l ++ [i + 1] ++ count_from (i + 1) (List.length rest))%list;
      rewrite app_assoc;
      replace (i + Z.of_nat (S (List.length rest)))
        with (i + 1 + Z.of_nat (List.length rest)) by lia;
      exact Hsteady.
Qed.

(** C1, where the code departs from it.  A run with the maximum N that
    no request stops does not reach N when a call of [session.create()]
    rejects: the call stands outside every [try], so [runLoop] throws
    the error in that iteration.  After [done] iterations that went
    undisturbed, fewer than N, the run ends in the next one: its number
    has been announced and the counter stands at it, below or at N; the
    [stopped] message is not sent and the running flag is left on.  (The
    same holds under the maximum 0.) *)
Theorem run_breaks_at_rejected_session (boot : Attempt string)
    (done : list IterEnv) (e : IterEnv) (rest : list IterEnv) (err : string)
    (w : World) :
  gateway_ready boot w = true ->
  forallb calm_env done = true ->
  forallb session_answers done = true ->
  (0 < maxIterations (config w) ->
   Z.of_nat (List.length done) < maxIterations (config w)) ->
  stops (arrivals (wait_monitor e)) = false ->
  stops (arrivals (wait_session e)) = false ->
  env_session e = Rejects err ->
  exists w',
    runLoop boot (done ++ e :: rest) w = Threw err w'
    /\ running (state w') = true
    /\ iteration (state w') = Z.of_nat (List.length done) + 1
    /\ iterations_announced (published w')
       = (iterations_announced (published w)
          ++ count_from 0 (S (List.length done)))%list
    /\ stopped_count (published w') = stopped_count (published w).
Proof.
  intros Hready Hcalm Hans HN Hm Hs Hsession.
  rewrite (runLoop_ready _ _ _ Hready).
  destruct (while_loop_through (maxIterations (config w)) done (e :: rest)
              0 _ _ ltac:(lia) ltac:(lia) Hcalm Hans _
              (loop_entry_steady boot w))
    as (w1 & Hsteady & Hloop).
  unfold bind at 1. rewrite Hloop.
  pose proof Hsteady as (Hrun & Hab & Hmax & Hit & Hk & Hl).
  rewrite (while_loop_head _ _ Hrun Hab). unfold ceiling_reached.
  rewrite Hmax, Hit.
  replace ((0 <? maxIterations (config w))
           && (maxIterations (config w) <=? 0 + Z.of_nat (List.length done)))
    with false
    by (destruct (Z.ltb_spec 0 (maxIterations (config w)));
        destruct (Z.leb_spec (maxIterations (config w))
                    (0 + Z.of_nat (List.length done)));
        cbn [andb]; lia || reflexivity).
  pose proof (iteration_body_session_breaks _ _ _ e err Hsession Hm Hs w1
                (conj Hrun (conj Hit (conj Hk Hl)))) as Hbody.
  unfold bind. destruct (iteration_body e w1) as [[] w2|err' w2|w2];
    try contradiction.
  destruct Hbody as (-> & Hrun2 & Hit2 & Hk2 & Hl2).
  exists w2. split; [reflexivity|].
  rewrite count_from_last, app_assoc.
  repeat split; try assumption; try lia.
  rewrite Hl2. do 2 f_equal. lia.
Qed.

(** ** The history through a run *)

Ltac bounded_leaf :=
  intros; unfold bounded in *; fields; autorewrite with world; fields;
  rewrite ?history_remember; auto using capped_length.

Lemma iteration_body_bounded (e : IterEnv) :
  hoare bounded (iteration_body e) (fun _ => bounded) (fun _ => bounded) bounded.
Proof.
  unfold iteration_body, runMonitor, pace. invariant_walk; bounded_leaf.
Qed.

Lemma handle_bounded (w : World) (r : Request) : bounded w -> bounded (handle w r).
Proof. destruct r; intros H; exact H. Qed.

(** One statement of a sequence, kept under the precondition. *)
Ltac prefix_rule :=
  lazymatch goal with
  | |- hoare ?I (bind (await _ (Resolves _)) _) _ _ _ =>
      apply hoare_bind_await_resolves with (P' := I); [ | cbv beta iota ]
  | |- hoare ?I (bind _ _) _ _ _ =>
      apply hoare_bind with (R := fun _ => I); [ | intros ? ]
  end.

Ltac queue_leaf :=
  intros; unfold queue_after in *;
  repeat match goal with
  | H : _ /\ _ |- _ => destruct H
  | H : exists _, _ |- _ => destruct H
  end;
  fields; autorewrite with world; fields;
  split; [ assumption || lia | eauto ].

Lemma iteration_body_queue (h0 : list HistoryEntry) (n : nat) (e : IterEnv) :
  (List.length h0 <= 100)%nat -> succeeds e = true ->
  hoare (queue_after h0 n) (iteration_body e)
    (fun _ => queue_after h0 (S n)) no_error never.
Proof.
  intros Hh0 He. unfold succeeds in He.
  destruct (env_session e) as [[id|]|] eqn:Hsession; try discriminate.
  destruct (env_prompt e) as [[parts|]|] eqn:Hprompt; try discriminate.
  set (mid := fun w : World =>
         iteration (state w) = Z.of_nat (S n)
         /\ exists new, List.length new = n
              /\ history (state w) = skipn (List.length h0 + n - 100) (h0 ++ new)
              /\ map entry_iteration new = count_from 0 n).
  assert (Hq : forall w, queue_after h0 n w ->
                 mid (with_state (fun s => set_iteration (iteration s + 1) s) w)).
  { intros w (Hit & new & Hnew). split; [fields; lia | exists new; exact Hnew]. }
  assert (Hpass : forall p w, mid w -> mid (pass p w)).
  { intros p w Hmid. unfold mid in *. autorewrite with world. exact Hmid. }
  unfold iteration_body, runMonitor, pace. rewrite Hsession, Hprompt.
  apply hoare_bind with (R := fun _ => mid); [apply hoare_update; exact Hq|].
  intros _.
  do 6 (prefix_rule; [answered_walk; intros; auto|]).
  apply hoare_bind with (R := fun _ => queue_after h0 (S n)).
  - apply hoare_try_catch with (E' := no_error); [|intros err w []].
    apply hoare_bind_await_resolves with (P' := mid); [auto|]. cbv beta iota zeta.
    apply hoare_bind with (R := fun _ => mid);
      [apply hoare_update; intros; exact H|intros _].
    apply hoare_bind with (R := fun _ => queue_after h0 (S n));
      [|intros _; apply hoare_broadcast; intros; exact H].
    apply hoare_update. intros w (Hit & new & Hlen & Hhist & Hnum).
    split; [exact Hit|]. fields. rewrite history_remember.
    eexists (new ++ [_])%list. rewrite length_app. cbn [List.length].
    split; [lia|]. split.
    + rewrite Hhist, <- Hlen. apply fifo_step. exact Hh0.
    + rewrite map_app, Hnum. cbn [map entry_iteration]. rewrite Hit.
      unfold count_from. rewrite seq_S, map_app. cbn [map]. repeat f_equal; lia.
  - intros _. answered_walk; queue_leaf.
Qed.

Lemma succeeds_answers (e : IterEnv) :
  succeeds e = true -> session_answers e = true.
Proof.
  unfold succeeds, session_answers. destruct (env_session e); [reflexivity|].
  discriminate.
Qed.

Lemma while_loop_queue (h0 : list HistoryEntry) (N : Z) (script : list IterEnv) :
  (List.length h0 <= 100)%nat ->
  forall (n : nat) (k : nat) (l : list Z),
    N <= 0 \/ Z.of_nat (n + List.length script) <= N ->
    forallb succeeds script = true ->
    forallb calm_env script = true ->
    hoare (fun w => steady N (Z.of_nat n) k l w /\ queue_after h0 n w)
      (while_loop script)
      (fun _ => queue_after h0 (n + List.length script)) no_error
      (queue_after h0 (n + List.length script)).
Proof.
  intros Hh0. induction script as [|e rest IH];
    intros n k l HN Hok Hcalm w [Hw Hq];
    pose proof Hw as (Hrun & Hab & Hmax & Hit & Hk & Hl);
    rewrite (while_loop_head _ _ Hrun Hab); unfold ceiling_reached;
    rewrite Hmax, Hit; cbn [List.length] in *.
  - rewrite Nat.add_0_r in *.
    destruct ((0 <? N) && (N <=? Z.of_nat n)); [|exact Hq].
    destruct Hq as (Hi & Hnew). split; [exact Hi | exact Hnew].
  - assert (Hbelow : (0 <? N) && (N <=? Z.of_nat n) = false).
    { destruct (Z.ltb_spec 0 N); [|reflexivity].
      destruct (Z.leb_spec N (Z.of_nat n)); [lia | reflexivity]. }
    rewrite Hbelow. cbn [forallb] in Hok, Hcalm.
    apply andb_prop in Hok as [He Hok]. apply andb_prop in Hcalm as [Hc Hcalm].
    pose proof (hoare_conj _ _ _ _ _ _ _ _ _
                  (iteration_body_steady N (Z.of_nat n) k l e Hc
                     (succeeds_answers e He))
                  (iteration_body_queue h0 n e Hh0 He) w (conj Hw Hq))
      as Hbody.
    unfold bind. destruct (iteration_body e w) as [[] w1|err w1|w1];
      try (destruct Hbody; contradiction).
    replace (n + S (List.length rest))%nat with (S n + List.length rest)%nat
      by lia.
    apply (IH (S n) k (l ++ [Z.of_nat n + 1])%list); auto; [lia|].
    destruct Hbody as [Hs Hq']. split; [|exact Hq'].
    replace (Z.of_nat (S n)) with (Z.of_nat n + 1) by lia. exact Hs.
Qed.

Lemma count_from_bounds (i : Z) (n : nat) (x : Z) :
  In x (count_from i n) <-> i < x <= i + Z.of_nat n.
Proof.
  unfold count_from. rewrite in_map_iff. split.
  - intros (k & <- & Hk). apply in_seq in Hk. lia.
  - intros Hx. exists (Z.to_nat (x - i)). split; [lia|].
    apply in_seq. lia.
Qed.

(** C3.  The history never holds more than 100 entries: not after a run
    of the loop, whatever happens in it and wherever it stands, and not
    after a request.  It is a queue: after a run of [n] successful
    iterations the history is the old entries followed by the [n] new
    ones, numbered 1 to [n] in this order, without as many of the oldest
    as it takes to keep 100.  After 101 successful iterations no entry
    has the number 1 and one has the number 101. *)
Theorem history_bounded_fifo (boot : Attempt string) (script : list IterEnv)
    (w : World) :
  bounded w ->
  let w' := world_of (runLoop boot script w) in
  bounded w'
  /\ (forall r, bounded (handle w r))
  /\ (gateway_ready boot w = true ->
      forallb succeeds script = true ->
      forallb calm_env script = true ->
      maxIterations (config w) <= 0
      \/ Z.of_nat (List.length script) <= maxIterations (config w) ->
      (exists new,
         List.length new = List.length script
         /\ map entry_iteration new = count_from 0 (List.length script)
         /\ history (state w')
            = skipn (List.length (history (state w)) + List.length script - 100)
                (history (state w) ++ new))
      /\ (List.length script = 101%nat ->
          (forall entry, In entry (history (state w')) ->
             entry_iteration entry <> 1)
          /\ exists entry,
               In entry (history (state w')) /\ entry_iteration entry = 101)).
Proof.
  intros Hb w'. split; [|split].
  - apply (hoare_invariant bounded); [|exact Hb].
    apply runLoop_invariant; try solve [bounded_leaf].
    intros e _. apply iteration_body_bounded.
  - intros r. apply handle_bounded. exact Hb.
  - intros Hready Hok Hcalm Hmax.
    assert (Hq : queue_after (history (state w)) (List.length script) w').
    { subst w'. rewrite (runLoop_ready _ _ _ Hready).
      pose proof (while_loop_queue (history (state w)) (maxIterations (config w))
                    script Hb 0 (stopped_count (published w))
                    (iterations_announced (published w)) Hmax Hok Hcalm
                    (loop_entry (established boot w))) as Hloop.
      cbn [Nat.add] in Hloop.
      assert (Hentry : queue_after (history (state w)) 0
                         (loop_entry (established boot w))).
      { unfold loop_entry, established, queue_after.
        split; [destruct (opencodeClient w); [|destruct boot]; reflexivity|].
        exists []. rewrite app_nil_r.
        replace (List.length (history (state w)) + 0 - 100)%nat with 0%nat
          by (unfold bounded in Hb; lia).
        repeat split. destruct (opencodeClient w); [|destruct boot]; reflexivity. }
      specialize (Hloop (conj (loop_entry_steady boot w) Hentry)).
      unfold bind. destruct (while_loop script _) as [[] w1|err w1|w1];
        try contradiction; [|exact Hloop].
      unfold loop_exit. step. exact Hloop. }
    destruct Hq as (_ & new & Hlen & Hhist & Hnum). split.
    + exists new. auto.
    + intros H101. rewrite H101 in *.
      assert (Hnums : map entry_iteration (history (state w')) = count_from 1 100).
      { rewrite Hhist, skipn_app, skipn_all2 by lia.
        replace (List.length (history (state w)) + 101 - 100
                 - List.length (history (state w)))%nat with 1%nat by lia.
        cbn [app]. rewrite <- skipn_map, Hnum, count_from_succ. reflexivity. }
      split.
      * intros entry Hin Hone.
        apply (in_map entry_iteration) in Hin. rewrite Hnums, Hone in Hin.
        apply count_from_bounds in Hin. lia.
      * assert (Hin : In 101 (map entry_iteration (history (state w')))).
        { rewrite Hnums. apply count_from_bounds. lia. }
        apply in_map_iff in Hin as (entry & Hnum' & Hin). eauto.
Qed.

(** ** Returning computations *)

Lemma hoare_returns {A : Type} (P : World -> Prop) (Q : A -> World -> Prop)
    (m : M A) :
  hoare P m Q no_error never ->
  forall w, P w -> exists a w', m w = Returned a w' /\ Q a w'.
Proof.
  intros H w Hw. specialize (H w Hw).
  destruct (m w) as [a w'| |]; try contradiction. eauto.
Qed.

Lemma bind_returned {A B : Type} (m : M A) (k : A -> M B) (w w' : World)
    (a : A) :
  m w = Returned a w' -> bind m k w = k a w'.
Proof. unfold bind. intros ->. reflexivity. Qed.

(** ** Working memory after an iteration *)

Lemma working_served (reqs : list Request) (c : LoopConfig) :
  forallb (fun r => negb (writes_working r)) reqs = true ->
  working (fold_left reconfigure reqs c) = working c.
Proof.
  revert c. induction reqs as [|r reqs IH]; intros c; cbn [forallb fold_left].
  - reflexivity.
  - intros H. apply andb_prop in H as [Hr H]. rewrite (IH _ H).
    destruct r as [body| |body|body]; try reflexivity; try discriminate.
    cbn in Hr |- *. destruct (p_working body); [discriminate | reflexivity].
Qed.

Ltac working_leaf :=
  intros; unfold leaves_working in *; fields; autorewrite with world; fields;
  rewrite ?working_served by assumption; auto.

(** C2, as the code has it.  An iteration in which a session was created
    ends with the working memory empty, whatever it held before and
    whether the prompt's dispatch succeeded, came back without data or
    failed (no request writing the working memory again during the
    pacing sleep).  An iteration whose session creation came back
    without data leaves the working memory as it was. *)
Theorem working_memory_after_iteration (e : IterEnv) (w : World) :
  (forall id, env_session e = Resolves (Some id) ->
     leaves_working (wait_sleep e) = true ->
     exists w', iteration_body e w = Returned tt w'
                /\ working (config w') = "")
  /\ (env_session e = Resolves None ->
      leaves_working (wait_monitor e) = true ->
      leaves_working (wait_session e) = true ->
      leaves_working (wait_sleep e) = true ->
      exists w', iteration_body e w = Returned tt w'
                 /\ working (config w') = working (config w)).
Proof.
  split.
  - intros id Hsession Hsleep.
    assert (H : hoare anything (iteration_body e)
                  (fun _ w' => working (config w') = "") no_error never).
    { unfold iteration_body, runMonitor, pace. rewrite Hsession.
      do 8 (prefix_rule; [answered_walk; intros; exact I|]).
      apply hoare_bind with (R := fun _ w' => working (config w') = "");
        [apply hoare_update; reflexivity | intros _].
      answered_walk; working_leaf. }
    destruct (hoare_returns _ _ _ H w I) as ([] & w' & Hrun & Hw').
    exists w'. split; assumption.
  - intros Hsession Hmonitor Hcreate Hsleep.
    assert (H : hoare (fun w' => working (config w') = working (config w))
                  (iteration_body e)
                  (fun _ w' => working (config w') = working (config w))
                  no_error never).
    { unfold iteration_body, runMonitor, pace. rewrite Hsession.
      answered_walk; working_leaf. }
    destruct (hoare_returns _ _ _ H w eq_refl) as ([] & w' & Hrun & Hw').
    exists w'. split; assumption.
Qed.

(** ** Starting without a gateway *)

(** C5, as the code has it.  When [POST /api/start] finds no loop
    running and the gateway cannot be established — [createOpencodeServer]
    rejects, or an earlier attempt left a server without a client — the
    server's world changes in one way only: one line is printed by
    [console.error].  No message at all is broadcast, the running flag
    stays off, the run state is untouched and no iteration of the script
    is executed. *)
Theorem start_without_gateway (boot : Attempt string) (script : list IterEnv)
    (w : World) :
  running (state w) = false ->
  opencodeClient w = false ->
  (opencodeServer w = None -> exists err, boot = Rejects err) ->
  let w' := api_start boot script w in
  (exists line, w' = log_error line w)
  /\ published w' = published w
  /\ running (state w') = false
  /\ state w' = state w.
Proof.
  intros Hrun Hclient Hboot w'.
  assert (H : exists line, w' = log_error line w).
  { subst w'. unfold api_start, runLoop, startOpenCode.
    rewrite Hrun, bind_reads, Hclient. cbv iota.
    rewrite !bind_bind, bind_reads.
    destruct (opencodeServer w) as [url|].
    - step. rewrite Hclient. step. eexists; reflexivity.
    - destruct (Hboot eq_refl) as [err ->]. step.
      rewrite pass_quiet. eexists; reflexivity. }
  split; [exact H|]. destruct H as [line ->]. fields. auto.
Qed.

(** ** Listing the models *)

(** C9, where the code departs from it.  With no client yet and
    [createOpencodeServer] rejecting, [fetchModels] does not return an
    empty list: it throws the error of [createOpencodeServer], the call
    to [startOpenCode] standing outside its [try]. *)
Theorem fetchModels_throws_without_gateway (err : string)
    (listing : Attempt (option (list Provider))) (w : World) :
  opencodeClient w = false -> opencodeServer w = None ->
  fetchModels (Rejects err) listing w = Threw err w.
Proof.
  intros Hclient Hserver. unfold fetchModels, startOpenCode.
  rewrite bind_reads, Hclient. cbv iota.
  rewrite !bind_bind, bind_reads, Hserver. cbv iota.
  step. rewrite pass_quiet. reflexivity.
Qed.

(** With the client in place, every failure of the listing itself gives
    the empty list. *)
Lemma fetchModels_listing_failure
    (boot : Attempt string) (listing : Attempt (option (list Provider)))
    (w : World) :
  opencodeClient w = true ->
  listing = Resolves None \/ (exists err, listing = Rejects err) ->
  fetchModels boot listing w = Returned [] w.
Proof.
  intros Hclient Hlisting. unfold fetchModels.
  rewrite bind_reads, Hclient. step. rewrite Hclient. cbn [negb].
  destruct Hlisting as [->|[err ->]]; step; rewrite pass_quiet; reflexivity.
Qed.

(** ** A prompt whose dispatch fails *)

Lemma errors_reported_snoc (evs : list Event) (ev : Event) :
  errors_reported (evs ++ [ev])
  = (errors_reported evs
     ++ match ev with EvError m n => [(m, n)] | _ => [] end)%list.
Proof.
  unfold errors_reported. rewrite flat_map_app. cbn [flat_map].
  rewrite app_nil_r. reflexivity.
Qed.

Lemma errors_reported_notices (evs : list Event) (reqs : list Request)
    (c : LoopConfig) :
  errors_reported (evs ++ notices reqs c) = errors_reported evs.
Proof.
  unfold errors_reported. rewrite flat_map_app.
  replace (flat_map _ (notices reqs c)) with (@nil (string * option Z));
    [apply app_nil_r|].
  symmetry. revert c. induction reqs as [|r reqs IH]; intros c; [reflexivity|].
  cbn [notices]. rewrite flat_map_app, IH, app_nil_r.
  destruct (is_stop r); reflexivity.
Qed.

Ltac record_leaf :=
  intros; unfold record_is in *;
  repeat match goal with H : _ /\ _ |- _ => destruct H end;
  fields; autorewrite with world; fields;
  rewrite ?errors_reported_notices; rewrite ?errors_reported_snoc;
  rewrite ?app_nil_r; repeat split; try assumption; try congruence; try lia.

(** C6, where the code departs from it.  When [session.prompt()]
    resolves without data — the gateway answered with an error instead
    of a response — the iteration goes on to its end, appends nothing to
    the history and leaves the last output alone, but it broadcasts no
    [error] message at all: the [if (result.data)] has no [else]. *)
Theorem prompt_without_data_is_silent (e : IterEnv) (w : World) (id : string) :
  env_session e = Resolves (Some id) ->
  env_prompt e = Resolves None ->
  exists w',
    iteration_body e w = Returned tt w'
    /\ errors_reported (published w') = errors_reported (published w)
    /\ history (state w') = history (state w)
    /\ lastOutput (state w') = lastOutput (state w).
Proof.
  intros Hsession Hprompt.
  assert (H : hoare (record_is (errors_reported (published w))
                       (history (state w)) (lastOutput (state w))
                       (iteration (state w)))
                (iteration_body e)
                (fun _ => record_is (errors_reported (published w))
                            (history (state w)) (lastOutput (state w))
                            (iteration (state w) + 1))
                no_error never).
  { unfold iteration_body, runMonitor, pace. rewrite Hsession, Hprompt.
    apply hoare_bind
      with (R := fun _ => record_is (errors_reported (published w))
                            (history (state w)) (lastOutput (state w))
                            (iteration (state w) + 1));
      [apply hoare_update; record_leaf | intros _].
    do 6 (prefix_rule; [answered_walk; record_leaf|]).
    prefix_rule; [|answered_walk; record_leaf].
    apply hoare_try_catch with (E' := no_error); [|intros err' w1 []].
    answered_walk; record_leaf. }
  destruct (hoare_returns _ _ _ H w ltac:(repeat split))
    as ([] & w' & Hrun & He & Hh & Ho & _).
  exists w'. auto.
Qed.

(** The sibling path: when [session.prompt()] rejects, the [catch]
    reports the error with the number of the iteration, and the history
    and the last output are as they were. *)
Lemma prompt_rejection_is_reported (e : IterEnv) (w : World) (id err : string) :
  env_session e = Resolves (Some id) ->
  env_prompt e = Rejects err ->
  exists w',
    iteration_body e w = Returned tt w'
    /\ errors_reported (published w')
       = (errors_reported (published w)
          ++ [(err, Some (iteration (state w) + 1))])%list
    /\ history (state w') = history (state w)
    /\ lastOutput (state w') = lastOutput (state w).
Proof.
  intros Hsession Hprompt.
  set (before := record_is (errors_reported (published w))
                   (history (state w)) (lastOutput (state w))
                   (iteration (state w) + 1)).
  set (after := record_is (errors_reported (published w)
                             ++ [(err, Some (iteration (state w) + 1))])%list
                  (history (state w)) (lastOutput (state w))
                  (iteration (state w) + 1)).
  assert (H : hoare (record_is (errors_reported (published w))
                       (history (state w)) (lastOutput (state w))
                       (iteration (state w)))
                (iteration_body e) (fun _ => after) no_error never).
  { unfold iteration_body, runMonitor, pace. rewrite Hsession, Hprompt.
    apply hoare_bind with (R := fun _ => before);
      [apply hoare_update; subst before; record_leaf | intros _].
    do 6 (prefix_rule; [answered_walk; subst before; record_leaf|]).
    apply hoare_bind with (R := fun _ => after).
    - apply hoare_try_catch with (E' := fun err' w' => before w' /\ err' = err).
      + apply hoare_bind_await_rejects. subst before. record_leaf.
      + intros err'. apply hoare_broadcast. intros w1 [Hw1 ->].
        subst before after. record_leaf.
    - intros _. answered_walk; subst after; record_leaf. }
  destruct (hoare_returns _ _ _ H w ltac:(repeat split))
    as ([] & w' & Hrun & He & Hh & Ho & _).
  exists w'. auto.
Qed.

(** ** A stop request during the pacing sleep *)

Lemma timer_delay_in_range (ms : Z) :
  1 <= ms <= 2147483647 -> timer_delay ms = ms.
Proof.
  intros [Hlow Hhigh]. unfold timer_delay.
  destruct (Z.leb_spec 1 ms); [|lia].
  destruct (Z.leb_spec ms 2147483647); [reflexivity | lia].
Qed.

(** C7, as the code has it.  The pacing sleep is a timer and a stop
    request served during it does not end it: the task resumes when the
    timer's whole delay has passed (and however late the timer fires).
    It then finds the running flag off and leaves the loop at once: no
    further iteration is announced, whatever the script holds, the
    counter is where it was, one [stopped] message is sent and the
    running flag is off. *)
Theorem stop_during_sleep (e : IterEnv) (rest : list IterEnv) (w : World) :
  stops (arrivals (wait_sleep e)) = true ->
  exists w',
    (pace e ;; while_loop rest ;; loop_exit) w = Returned tt w'
    /\ running (state w') = false
    /\ iteration (state w') = iteration (state w)
    /\ iterations_announced (published w') = iterations_announced (published w)
    /\ stopped_count (published w') = S (stopped_count (published w))
    /\ clock w' = clock w + timer_delay (interval (config w))
                  + Z.of_nat (elapsed (wait_sleep e)).
Proof.
  intros Hstop. unfold pace, loop_exit.
  rewrite bind_bind, bind_reads, bind_sleep.
  rewrite (bind_returned _ _ _ _ _ (while_loop_idle rest _
    ltac:(rewrite state_pass; cbn [running set_running];
          rewrite Hstop; apply andb_false_r))).
  step. eexists; split; [reflexivity|]. fields. autorewrite with world. fields.
  rewrite stopped_count_snoc, iterations_announced_snoc.
  rewrite stopped_count_notices, iterations_announced_notices.
  cbn [is_stopped]. rewrite app_nil_r. repeat split; lia.
Qed.

(** * The theorems at concrete inputs *)

(** The run that nothing breaks, at a maximum of 2 with three iterations
    answered, and at the maximum 0. *)
Lemma run_to_ceiling_witness :
  (exists w',
     runLoop local_gateway [answered "a"; answered "b"; answered "c"]
       (world_with_maximum 2) = Returned tt w'
     /\ iteration (state w') = 2
     /\ stopped_count (published w') = 1%nat)
  /\ (exists w',
        runLoop local_gateway [answered "a"; answered "b"; answered "c"]
          initial_world = Parked w'
        /\ iteration (state w') = 3
        /\ stopped_count (published w') = 0%nat).
Proof.
  split.
  - destruct (run_to_ceiling local_gateway
                [answered "a"; answered "b"; answered "c"]
                (world_with_maximum 2) eq_refl eq_refl eq_refl) as [Hpos _].
    destruct (Hpos eq_refl ltac:(cbn; lia))
      as (w' & Hrun & _ & Hit & _ & Hstopped & _).
    exists w'. repeat split; assumption.
  - destruct (run_to_ceiling local_gateway
                [answered "a"; answered "b"; answered "c"]
                initial_world eq_refl eq_refl eq_refl) as [_ Hzero].
    destruct (Hzero eq_refl) as (w' & Hrun & _ & Hit & _ & Hstopped).
    exists w'. repeat split; assumption.
Defined.

(** C1 at a maximum of 3, with the session creation rejected in the
    second iteration. *)
Lemma run_breaks_at_rejected_session_witness :
  exists w',
    runLoop local_gateway [answered "a"; session_breaks; answered "c"]
      (world_with_maximum 3)
    = Threw "TypeError: fetch failed" w'
    /\ running (state w') = true
    /\ iteration (state w') = 2
    /\ stopped_count (published w') = 0%nat.
Proof.
  destruct (run_breaks_at_rejected_session local_gateway [answered "a"]
              session_breaks [answered "c"] "TypeError: fetch failed"
              (world_with_maximum 3) eq_refl eq_refl eq_refl
              ltac:(intros _; reflexivity) eq_refl eq_refl eq_refl)
    as (w' & Hrun & Hon & Hit & _ & Hstopped).
  exists w'. repeat split; assumption.
Defined.

(** C2: a failed session creation leaves the working memory as it was. *)
Lemma failed_session_keeps_working_memory :
  working
    (config (world_of (iteration_body session_refused world_with_notes)))
  <> "".
Proof. vm_compute. discriminate. Qed.

(** C2, as the code has it, at an iteration whose prompt comes back
    without data and at one whose session creation does. *)
Lemma working_memory_after_iteration_witness :
  (exists w', iteration_body prompt_refused world_with_notes = Returned tt w'
              /\ working (config w') = "")
  /\ (exists w', iteration_body session_refused world_with_notes
                 = Returned tt w'
                 /\ working (config w') = "check the disk first").
Proof.
  split.
  - exact (proj1 (working_memory_after_iteration prompt_refused
                    world_with_notes) "ses_1" eq_refl eq_refl).
  - exact (proj2 (working_memory_after_iteration session_refused
                    world_with_notes) eq_refl eq_refl eq_refl eq_refl).
Defined.

(** C3 at the initial world and 101 successful iterations. *)
Lemma history_bounded_fifo_witness :
  let w' := world_of (runLoop local_gateway (repeat (answered "ok") 101)
                        initial_world) in
  bounded w'
  /\ (forall entry, In entry (history (state w')) -> entry_iteration entry <> 1)
  /\ exists entry, In entry (history (state w')) /\ entry_iteration entry = 101.
Proof.
  intros w'.
  destruct (history_bounded_fifo local_gateway (repeat (answered "ok") 101)
              initial_world ltac:(unfold bounded; cbn; lia))
    as (Hbounded & _ & Hqueue).
  destruct (Hqueue eq_refl eq_refl eq_refl ltac:(left; cbn; lia))
    as (_ & H101).
  destruct (H101 eq_refl) as (Habsent & Hpresent).
  split; [exact Hbounded | split; [exact Habsent | exact Hpresent]].
Defined.

(** C5: the failure to establish the gateway broadcasts no [error]
    message. *)
Lemma gateway_failure_publishes_nothing :
  ~ exists message n,
      In (EvError message n)
         (published (api_start no_gateway [answered "ok"] initial_world)).
Proof. vm_compute. intros (message & n & []). Qed.

(** C5, as the code has it, at the initial world. *)
Lemma start_without_gateway_witness :
  published (api_start no_gateway [answered "ok"] initial_world) = []
  /\ running (state (api_start no_gateway [answered "ok"] initial_world))
     = false.
Proof.
  destruct (start_without_gateway no_gateway [answered "ok"] initial_world
              eq_refl eq_refl
              (fun _ => ex_intro _ "Error: Server exited with code 127" eq_refl))
    as (_ & Hpublished & Hrunning & _).
  split; [exact Hpublished | exact Hrunning].
Defined.

(** C6 at an iteration whose prompt comes back without data. *)
Lemma prompt_without_data_is_silent_witness :
  exists w',
    iteration_body prompt_refused initial_world = Returned tt w'
    /\ errors_reported (published w') = []
    /\ history (state w') = [].
Proof.
  destruct (prompt_without_data_is_silent prompt_refused initial_world "ses_1"
              eq_refl eq_refl) as (w' & Hrun & Herrors & Hhistory & _).
  exists w'. repeat split; assumption.
Defined.

(** C7: a stop request served at the start of the sleep does not shorten
    it. *)
Lemma stop_does_not_interrupt_sleep :
  ~ stop_interrupts_sleep stopped_asleep initial_world.
Proof.
  unfold stop_interrupts_sleep. intros H. specialize (H eq_refl).
  vm_compute in H. discriminate H.
Qed.

(** C7, as the code has it, at the initial world: the task resumes after
    the 5000 ms of the default interval. *)
Lemma stop_during_sleep_witness :
  exists w',
    (pace stopped_asleep ;; while_loop [answered "never"] ;; loop_exit)
      initial_world = Returned tt w'
    /\ running (state w') = false
    /\ iteration (state w') = 0
    /\ clock w' = 5000.
Proof.
  destruct (stop_during_sleep stopped_asleep [answered "never"] initial_world
              eq_refl) as (w' & Hrun & Hidle & Hit & _ & _ & Hclock).
  exists w'. repeat split; assumption.
Defined.

(** C8 at a command that runs and at a shell that cannot be spawned. *)
Lemma runMonitor_output_witness :
  (exists w', runMonitor (answered "ok") world_with_monitor = Returned tt w'
              /\ monitorOutput (state w') = "up 3 days")
  /\ (exists w', runMonitor shell_missing world_with_monitor = Returned tt w'
                 /\ starts_with "Error running monitor: "
                      (monitorOutput (state w')) = true).
Proof.
  split.
  - destruct (runMonitor_output (answered "ok") world_with_monitor "uptime"
                eq_refl) as (w' & Hrun & Hout & _).
    exists w'. split; [exact Hrun | exact Hout].
  - destruct (runMonitor_output shell_missing world_with_monitor "uptime"
                eq_refl) as (w' & Hrun & [_ Hout] & _).
    exists w'. split; [exact Hrun | exact Hout].
Defined.

(** C9 at the initial world. *)
Lemma fetchModels_throws_without_gateway_witness :
  fetchModels no_gateway (Resolves (Some [])) initial_world
  = Threw "Error: Server exited with code 127" initial_world.
Proof.
  exact (fetchModels_throws_without_gateway
           "Error: Server exited with code 127" (Resolves (Some []))
           initial_world eq_refl eq_refl).
Defined.

(** C10 at a world that holds an old monitor output, over two
    iterations. *)
Lemma monitor_output_persists_witness :
  runMonitor (answered "ok") world_with_old_output
  = Returned tt world_with_old_output
  /\ monitorOutput
       (state (world_of (runLoop local_gateway [answered "a"; answered "b"]
                           world_with_old_output)))
     = "up 3 days".
Proof.
  destruct (monitor_output_persists local_gateway [answered "a"; answered "b"]
              world_with_old_output eq_refl) as (Hsame & Hrun).
  split; [apply Hsame|].
  exact (proj1 (Hrun eq_refl ltac:(discriminate))).
Defined.

(** ** Whole runs, evaluated *)

(** Two iterations under a maximum of 2: the messages of the run. *)
Example run_of_two_iterations :
  map (fun ev => match ev with
                 | EvState _ => "state" | EvIteration _ => "iteration"
                 | EvMonitor _ => "monitor" | EvPrompt _ _ => "prompt"
                 | EvResponse _ _ => "response" | EvError _ _ => "error"
                 | EvConfig _ => "config" | EvStopped => "stopped"
                 end)
    (published (world_of (runLoop local_gateway [answered "a"; answered "b"]
                            (world_with_maximum 2))))
  = ["config"; "state";
     "iteration"; "prompt"; "response"; "state";
     "iteration"; "prompt"; "response"; "state";
     "stopped"].
Proof. vm_compute. reflexivity. Qed.

(** A stop served during the first sleep: one iteration, and the run ends
    when the clock shows the whole interval. *)
Example run_stopped_asleep :
  let w' := world_of (runLoop local_gateway [stopped_asleep; answered "never"]
                        initial_world) in
  iterations_announced (published w') = [1]
  /\ stopped_count (published w') = 1%nat
  /\ running (state w') = false
  /\ clock w' = 5000.
Proof. vm_compute. repeat split. Qed.

(** * Further properties of the server *)

(** ** The response extractor *)

Lemma append_assoc (a b c : string) : (a ++ b) ++ c = a ++ b ++ c.
Proof. induction a as [|x a IH]; cbn; [|rewrite IH]; reflexivity. Qed.

Lemma join_app (sep : string) (a b : list string) :
  a <> [] -> b <> [] ->
  join sep (a ++ b) = join sep a ++ sep ++ join sep b.
Proof.
  intros Ha Hb. induction a as [|x [|y a] IH]; [contradiction| |].
  - destruct b; [contradiction | reflexivity].
  - change (join sep ((x :: y :: a) ++ b))
      with (x ++ sep ++ join sep ((y :: a) ++ b)).
    rewrite IH by discriminate.
    change (join sep (x :: y :: a)) with (x ++ sep ++ join sep (y :: a)).
    rewrite !append_assoc. reflexivity.
Qed.

Lemma texts_of_app (a b : list Part) :
  map part_text (filter (fun p => (part_type p =? "text")%string) (a ++ b))
  = (map part_text (filter is_text a) ++ map part_text (filter is_text b))%list.
Proof. rewrite filter_app, map_app. reflexivity. Qed.

(** X1.  Only the text parts of a response count, in their order: a part
    of another type can be put in or taken out anywhere without changing
    the extracted response; with no text part at all the response is the
    empty string; and the response of two runs of parts that both hold
    text is the two responses with a line feed between them. *)
Theorem extractResponse_text_only (before after : list Part) :
  (forall p, part_type p <> "text" ->
     extractResponse (before ++ p :: after) = extractResponse (before ++ after))
  /\ (existsb is_text before = false -> extractResponse before = "")
  /\ (existsb is_text before = true -> existsb is_text after = true ->
      extractResponse (before ++ after)
      = extractResponse before ++ nl ++ extractResponse after).
Proof.
  unfold extractResponse. split; [|split].
  - intros p Hp. rewrite !filter_app. cbn [filter].
    destruct (String.eqb_spec (part_type p) "text"); [contradiction | reflexivity].
  - intros Hnone. replace (filter _ before) with (@nil Part); [reflexivity|].
    symmetry. induction before as [|p rest IH]; [reflexivity|].
    cbn [existsb filter] in *. apply orb_false_iff in Hnone as [Hp Hrest].
    unfold is_text in Hp. rewrite Hp. exact (IH Hrest).
  - intros Hb Ha. rewrite texts_of_app. apply join_app.
    + clear Ha. induction before as [|p rest IH]; [discriminate Hb|].
      unfold is_text in *. cbn [existsb filter] in *.
      destruct (part_type p =? "text")%string; [cbn [map]; discriminate|].
      exact (IH Hb).
    + clear Hb. induction after as [|p rest IH]; [discriminate Ha|].
      unfold is_text in *. cbn [existsb filter] in *.
      destruct (part_type p =? "text")%string; [cbn [map]; discriminate|].
      exact (IH Ha).
Qed.

(** X1 at a response with a tool part between two text parts. *)
Lemma extractResponse_text_only_witness :
  extractResponse
    ([text_part "first"]
     ++ {| part_type := "tool"; part_text := "ls" |} :: [text_part "second"])
  = extractResponse ([text_part "first"] ++ [text_part "second"])
  /\ extractResponse [{| part_type := "tool"; part_text := "ls" |}] = ""
  /\ extractResponse ([text_part "first"] ++ [text_part "second"])
     = "first" ++ nl ++ "second".
Proof.
  split; [|split].
  - exact (proj1 (extractResponse_text_only [text_part "first"]
                    [text_part "second"])
             {| part_type := "tool"; part_text := "ls" |}
             ltac:(discriminate)).
  - exact (proj1 (proj2 (extractResponse_text_only
                           [{| part_type := "tool"; part_text := "ls" |}] []))
             eq_refl).
  - exact (proj2 (proj2 (extractResponse_text_only [text_part "first"]
                           [text_part "second"])) eq_refl eq_refl).
Defined.

(** ** Listing the models, with the client in place *)

Lemma in_models_of (provider : Provider) (info : ModelInfo) :
  In info (models_of provider)
  <-> exists entries entry,
        provider_models provider = Some entries
        /\ In entry entries /\ info = model_info provider entry.
Proof.
  unfold models_of. destruct (provider_models provider) as [entries|].
  - rewrite in_map_iff. split.
    + intros ([modelID name] & <- & Hin). exists entries, (modelID, name). auto.
    + intros (entries' & [modelID name] & Heq & Hin & ->).
      injection Heq as <-. exists (modelID, name). auto.
  - split; [intros [] | intros (? & ? & Heq & _); discriminate].
Qed.

(** X2.  With the client in place [fetchModels] never throws and never
    starts a server, whatever [provider.list()] does, and it changes no
    variable.  When the listing resolves with data, the result holds
    exactly the models of the providers listed — one entry for each
    entry of the [models] of each provider, under that provider's id —
    and a provider without [models] contributes nothing. *)
Theorem fetchModels_with_client (boot : Attempt string)
    (listing : Attempt (option (list Provider))) (w : World) :
  opencodeClient w = true ->
  exists models,
    fetchModels boot listing w = Returned models w
    /\ forall all, listing = Resolves (Some all) ->
         models = flat_map models_of all
         /\ (forall info,
               In info models
               <-> exists provider entries entry,
                     In provider all
                     /\ provider_models provider = Some entries
                     /\ In entry entries
                     /\ info = model_info provider entry)
         /\ List.length models
            = list_sum (map (fun provider =>
                               match provider_models provider with
                               | Some entries => List.length entries
                               | None => 0%nat
                               end) all).
Proof.
  intros Hclient. unfold fetchModels.
  rewrite bind_reads, Hclient. step. rewrite Hclient. cbn [negb].
  destruct listing as [[all|]|err]; step; rewrite pass_quiet;
    eexists; (split; [reflexivity|]); intros all' Heq; try discriminate.
  injection Heq as <-. split; [reflexivity|]. split.
  - intros info. rewrite in_flat_map. split.
    + intros (provider & Hin & Hinfo).
      apply in_models_of in Hinfo as (entries & entry & H1 & H2 & H3).
      exists provider, entries, entry. auto.
    + intros (provider & entries & entry & Hin & H1 & H2 & H3).
      exists provider. split; [exact Hin|]. apply in_models_of. eauto.
  - induction all as [|provider rest IH]; [reflexivity|].
    cbn [flat_map map list_sum]. rewrite length_app, IH.
    unfold models_of. destruct (provider_models provider); [|reflexivity].
    rewrite length_map. reflexivity.
Qed.

(** X2 at two providers, one of them without models. *)
Lemma fetchModels_with_client_witness :
  exists models,
    fetchModels no_gateway (Resolves (Some two_providers)) world_with_gateway
    = Returned models world_with_gateway
    /\ List.length models = 2%nat.
Proof.
  destruct (fetchModels_with_client no_gateway (Resolves (Some two_providers))
              world_with_gateway eq_refl) as (models & Hrun & Hall).
  destruct (Hall two_providers eq_refl) as (_ & _ & Hlength).
  exists models. split; [exact Hrun | exact Hlength].
Defined.

(** ** Starting the gateway *)

Lemma startOpenCode_uninterrupted (boot : Attempt string) (w : World) :
  opencodeServer w = None ->
  startOpenCode boot w
  = match boot with
    | Resolves url => Returned tt (set_gateway url w)
    | Rejects err => Threw err w
    end.
Proof.
  intros Hserver. unfold startOpenCode.
  destruct boot as [url|err]; rewrite !bind_reads, Hserver; step;
    rewrite ?pass_quiet; reflexivity.
Qed.

Lemma boot_step_served (b : Booting) (ev : BootEvent) :
  opencodeServer (boot_world b) <> None ->
  opencodeClient (boot_world b) = true ->
  opencodeServer (boot_world (boot_step b ev)) <> None
  /\ opencodeClient (boot_world (boot_step b ev)) = true
  /\ spawned (boot_step b ev) = spawned b.
Proof.
  intros Hserver Hclient. destruct ev as [|[url|err]]; cbn [boot_step].
  - destruct (opencodeServer (boot_world b)) eqn:Hs; [|contradiction].
    rewrite Hs. auto.
  - destruct (waiting b); cbn; [auto | repeat split; discriminate].
  - destruct (waiting b); cbn; auto.
Qed.

Lemma boot_run_served (evs : list BootEvent) (b : Booting) :
  opencodeServer (boot_world b) <> None ->
  opencodeClient (boot_world b) = true ->
  opencodeServer (boot_world (boot_run evs b)) <> None
  /\ opencodeClient (boot_world (boot_run evs b)) = true
  /\ spawned (boot_run evs b) = spawned b.
Proof.
  revert b. induction evs as [|ev evs IH]; intros b Hserver Hclient; [auto|].
  cbn [boot_run fold_left].
  destruct (boot_step_served b ev Hserver Hclient) as (Hstep & Hc & Hsame).
  destruct (IH _ Hstep Hc) as (Hrun & Hc' & Hcount).
  repeat split; [exact Hrun | exact Hc' | unfold boot_run in Hcount; lia].
Qed.

Lemma boot_run_unserved (evs : list BootEvent) (b : Booting) :
  opencodeServer (boot_world b) = None ->
  none_resolves evs = true ->
  boot_world (boot_run evs b) = boot_world b
  /\ spawned (boot_run evs b) = (spawned b + calls evs)%nat.
Proof.
  revert b. induction evs as [|ev evs IH]; intros b Hserver Hnone.
  - cbn. split; [reflexivity | lia].
  - cbn [none_resolves forallb] in Hnone. apply andb_prop in Hnone as [Hev Hnone].
    cbn [boot_run fold_left].
    assert (Hstep : boot_world (boot_step b ev) = boot_world b
                    /\ spawned (boot_step b ev)
                       = (spawned b + calls [ev])%nat).
    { destruct ev as [|[url|err]]; cbn [boot_step]; [|discriminate|].
      - rewrite Hserver. cbn. split; [reflexivity | lia].
      - destruct (waiting b); cbn; split; reflexivity || lia. }
    destruct Hstep as [Hworld Hcount].
    destruct (IH (boot_step b ev) ltac:(rewrite Hworld; exact Hserver) Hnone)
      as [Hrun Hspawned].
    unfold boot_run in *. rewrite Hrun, Hspawned, Hworld, Hcount.
    split; [reflexivity|].
    unfold calls. cbn [filter]. destruct ev; cbn [List.length]; lia.
Qed.

(** X3.  [startOpenCode] spawns a server whenever it is called while
    [opencodeServer] is not set; its test comes before the [await] and
    its assignment after, so that calls which overlap all pass the
    test.  Whatever the schedule of calls and of settling spawns, as
    long as no spawn has resolved every call spawns a server of its own
    and no variable changes; once one has resolved into a waiting call,
    the server and the client are set — each later resolution writes
    them again — and no call spawns any more.  So the number of servers
    spawned is the number of calls begun before the first resolution,
    which is one only if they did not overlap.  A call that nothing
    interleaves is the schedule of its two halves. *)
Theorem startOpenCode_spawns (w : World) (before later : list BootEvent)
    (url : string) :
  opencodeServer w = None ->
  none_resolves before = true ->
  let pending := boot_run before (no_call w) in
  let served := boot_run (before ++ Settled (Resolves url) :: later)
                  (no_call w) in
  boot_world pending = w
  /\ spawned pending = calls before
  /\ (waiting pending <> 0%nat ->
      spawned served = calls before
      /\ opencodeServer (boot_world served) <> None
      /\ opencodeClient (boot_world served) = true)
  /\ forall boot,
       world_of (startOpenCode boot w)
       = boot_world (boot_run [Called; Settled boot] (no_call w)).
Proof.
  intros Hserver Hnone pending served.
  destruct (boot_run_unserved before (no_call w) Hserver Hnone)
    as [Hworld Hspawned].
  cbn [no_call boot_world spawned] in Hworld, Hspawned.
  split; [exact Hworld|]. split; [exact Hspawned|]. split.
  - intros Hwaiting. subst served. unfold boot_run. rewrite fold_left_app.
    cbn [fold_left]. fold (boot_run before (no_call w)). fold pending.
    destruct (waiting pending) as [|others] eqn:Hothers; [contradiction|].
    cbn [boot_step]. rewrite Hothers.
    destruct (boot_run_served later
                {| boot_world := set_gateway url (boot_world pending);
                   spawned := spawned pending; waiting := others |}
                ltac:(discriminate) eq_refl)
      as (Hset & Hclient & Hcount).
    unfold boot_run in *. cbn [spawned] in Hcount.
    repeat split; [rewrite Hcount; exact Hspawned | exact Hset | exact Hclient].
  - intros boot. rewrite (startOpenCode_uninterrupted boot w Hserver).
    cbn [boot_run fold_left no_call boot_step boot_world spawned waiting].
    rewrite Hserver. destruct boot; reflexivity.
Qed.

(** X3 for two calls that overlap — a start and a listing of the models
    on a fresh server: both spawn, and a call after them does not. *)
Lemma startOpenCode_spawns_witness :
  let served := boot_run [Called; Called;
                          Settled (Resolves "http://127.0.0.1:4097");
                          Settled (Resolves "http://127.0.0.1:4098");
                          Called]
                  (no_call initial_world) in
  spawned served = 2%nat /\ opencodeClient (boot_world served) = true.
Proof.
  intros served.
  destruct (startOpenCode_spawns initial_world [Called; Called]
              [Settled (Resolves "http://127.0.0.1:4098"); Called]
              "http://127.0.0.1:4097" eq_refl eq_refl)
    as (_ & _ & Hserved & _).
  destruct (Hserved ltac:(intros H; vm_compute in H; discriminate H))
    as (Hcount & _ & Hclient).
  split; [exact Hcount | exact Hclient].
Defined.


(** ** The broadcast hub *)

Lemma broadcast_to_open (clients : list Client) (chunk : Message) :
  broadcast_to clients chunk
  = map (deliver chunk) (filter (fun c => negb (client_closed c)) clients).
Proof.
  induction clients as [|c rest IH]; [reflexivity|].
  cbn [broadcast_to filter]. unfold enqueue.
  destruct (client_closed c) eqn:Hc; cbn [negb map]; rewrite IH; [reflexivity|].
  f_equal. unfold deliver. rewrite Hc. reflexivity.
Qed.

(** X4.  [broadcast] sends the message to every open client and to no
    other: afterwards the set holds exactly the clients whose stream was
    open, in their order, each with the message added at the end of what
    it had been sent; the clients whose stream was closed are gone from
    the set, and no open one is. *)
Theorem broadcast_reaches_open_clients (clients : list Client)
    (chunk : Message) :
  broadcast_to clients chunk
  = map (deliver chunk) (filter (fun c => negb (client_closed c)) clients)
  /\ (forall c, In c (broadcast_to clients chunk) ->
        client_closed c = false
        /\ exists sent, client_queue c = (sent ++ [chunk])%list)
  /\ List.length (broadcast_to clients chunk)
     = List.length (filter (fun c => negb (client_closed c)) clients).
Proof.
  rewrite broadcast_to_open. split; [reflexivity|]. split.
  - intros c Hin. apply in_map_iff in Hin as (c0 & <- & Hin).
    apply filter_In in Hin as [_ Hopen]. apply negb_true_iff in Hopen.
    split; [exact Hopen|]. eexists; reflexivity.
  - apply length_map.
Qed.

(** X4 at a set of one open and one closed client. *)
Lemma broadcast_reaches_open_clients_witness :
  broadcast_to
    [ {| client_closed := false; client_queue := [Data EvStopped] |};
      {| client_closed := true; client_queue := [] |} ]
    (Data (EvIteration 1))
  = [ {| client_closed := false;
         client_queue := [Data EvStopped; Data (EvIteration 1)] |} ].
Proof.
  exact (proj1 (broadcast_reaches_open_clients
                  [ {| client_closed := false;
                       client_queue := [Data EvStopped] |};
                    {| client_closed := true; client_queue := [] |} ]
                  (Data (EvIteration 1)))).
Defined.

Lemma hub_run_snoc (steps : list HubStep) (step : HubStep) :
  hub_run (steps ++ [step]) = hub_step (hub_run steps) step.
Proof. unfold hub_run. rewrite fold_left_app. reflexivity. Qed.

Lemma broadcasts_of_snoc (steps : list HubStep) (step : HubStep) :
  broadcasts_of (steps ++ [step])
  = (broadcasts_of steps
     ++ match step with Broadcasts ev => [Data ev] | _ => [] end)%list.
Proof.
  unfold broadcasts_of. rewrite flat_map_app. cbn [flat_map].
  rewrite app_nil_r. reflexivity.
Qed.

(** A client well served by [steps] is well served by one more step that
    sends it nothing, and, the stream being open, by a broadcast that it
    is sent. *)
Lemma well_served_idle (steps : list HubStep) (step : HubStep) (cl : Client) :
  (forall ev, step = Broadcasts ev -> client_closed cl = true) ->
  well_served steps cl -> well_served (steps ++ [step]) cl.
Proof.
  intros Hstep (before & after & s & c & received & -> & Hq & [missed Hm] & Hopen).
  exists before, (after ++ [step])%list, s, c, received.
  rewrite <- app_assoc. split; [reflexivity|]. split; [exact Hq|].
  rewrite broadcasts_of_snoc. split.
  - eexists. rewrite Hm, <- app_assoc. reflexivity.
  - intros Ho. destruct step as [| ev |]; rewrite ?app_nil_r; auto.
    rewrite (Hstep ev eq_refl) in Ho. discriminate.
Qed.

Lemma well_served_delivered (steps : list HubStep) (ev : Event) (cl : Client) :
  client_closed cl = false ->
  well_served steps cl ->
  well_served (steps ++ [Broadcasts ev]) (deliver (Data ev) cl).
Proof.
  intros Ho (before & after & s & c & received & -> & Hq & _ & Hopen).
  exists before, (after ++ [Broadcasts ev])%list, s, c,
    (received ++ [Data ev])%list.
  rewrite <- app_assoc. split; [reflexivity|]. cbn [deliver client_queue].
  rewrite Hq, broadcasts_of_snoc, (Hopen Ho). split; [reflexivity|]. split.
  - exists []. rewrite app_nil_r. reflexivity.
  - reflexivity.
Qed.

Lemma well_served_hang_up (steps : list HubStep) (step : HubStep) (cl : Client) :
  well_served steps cl -> well_served (steps ++ [step]) (hang_up cl).
Proof.
  intros (before & after & s & c & received & -> & Hq & [missed Hm] & Hopen).
  exists before, (after ++ [step])%list, s, c, received.
  rewrite <- app_assoc. split; [reflexivity|]. split; [exact Hq|].
  rewrite broadcasts_of_snoc. split; [|discriminate].
  eexists. rewrite Hm, <- app_assoc. reflexivity.
Qed.

Lemma Forall_taken {A : Type} (P : A -> Prop) (n : nat) (l : list A) :
  Forall P l -> Forall P (firstn n l) /\ Forall P (skipn n l).
Proof.
  intros H. rewrite <- (firstn_skipn n l) in H. apply Forall_app in H. exact H.
Qed.

Lemma hub_run_well_served (steps : list HubStep) :
  Forall (well_served steps) (hub_run steps).
Proof.
  induction steps as [|step steps IH] using rev_ind; [constructor|].
  rewrite hub_run_snoc. destruct step as [s c | ev | index]; cbn [hub_step].
  - unfold subscribe. apply Forall_app. split.
    + eapply Forall_impl; [|exact IH]. intros cl. apply well_served_idle.
      discriminate.
    + constructor; [|constructor].
      exists steps, [], s, c, []. repeat split. exists []. reflexivity.
  - rewrite broadcast_to_open. apply Forall_map.
    rewrite Forall_forall in IH |- *. intros cl Hin.
    apply filter_In in Hin as [Hin Hopen]. apply negb_true_iff in Hopen.
    apply well_served_delivered; auto.
  - destruct (nth_error (hub_run steps) index) as [cl|] eqn:Hnth.
    + assert (Hcl : well_served steps cl).
      { rewrite Forall_forall in IH. apply IH.
        exact (nth_error_In _ _ Hnth). }
      apply Forall_app. split; [|constructor].
      * eapply Forall_impl; [|exact (proj1 (Forall_taken _ index _ IH))].
        intros cl'. apply well_served_idle. discriminate.
      * apply well_served_hang_up. exact Hcl.
      * eapply Forall_impl; [|exact (proj2 (Forall_taken _ (S index) _ IH))].
        intros cl'. apply well_served_idle. discriminate.
    + eapply Forall_impl; [|exact IH]. intros cl'. apply well_served_idle.
      discriminate.
Qed.

(** X5.  Whatever the order in which clients subscribe, events are
    broadcast and streams are closed, a client in the set has been sent
    the [connected] message first and only once, and after it, in the
    order of their broadcast, events broadcast since it subscribed:
    every one of them when its stream is open. *)
Theorem hub_serves_in_order (steps : list HubStep) (cl : Client) :
  In cl (hub_run steps) ->
  exists before after s c received,
    steps = (before ++ Subscribes s c :: after)%list
    /\ client_queue cl = Connected s c :: received
    /\ (forall s' c', ~ In (Connected s' c') received)
    /\ (exists missed, broadcasts_of after = received ++ missed)%list
    /\ (client_closed cl = false -> received = broadcasts_of after).
Proof.
  intros Hin. pose proof (hub_run_well_served steps) as Hall.
  rewrite Forall_forall in Hall.
  destruct (Hall cl Hin)
    as (before & after & s & c & received & Hs & Hq & [missed Hm] & Hopen).
  exists before, after, s, c, received. repeat split; auto; [|eauto].
  intros s' c' Hc.
  assert (Hb : In (Connected s' c') (broadcasts_of after)).
  { rewrite Hm. apply in_app_iff. left. exact Hc. }
  unfold broadcasts_of in Hb. apply in_flat_map in Hb as (step & _ & Hstep).
  destruct step; cbn in Hstep; try contradiction.
  destruct Hstep as [Hstep|[]]. discriminate.
Qed.

(** X5 at a client that subscribes between two broadcasts. *)
Lemma hub_serves_in_order_witness :
  exists before after s c received,
    [Broadcasts (EvIteration 1); Subscribes initial_state initial_config;
     Broadcasts (EvIteration 2)]
    = (before ++ Subscribes s c :: after)%list
    /\ [Connected initial_state initial_config; Data (EvIteration 2)]
       = Connected s c :: received
    /\ (forall s' c', ~ In (Connected s' c') received)
    /\ (exists missed, broadcasts_of after = received ++ missed)%list
    /\ (false = false -> received = broadcasts_of after).
Proof.
  exact (hub_serves_in_order
           [Broadcasts (EvIteration 1);
            Subscribes initial_state initial_config;
            Broadcasts (EvIteration 2)]
           {| client_closed := false;
              client_queue := [Connected initial_state initial_config;
                               Data (EvIteration 2)] |}
           (or_introl eq_refl)).
Defined.

(** ** The request handler *)

Lemma eqb_other (a b : string) : a <> b -> (a =? b)%string = false.
Proof. intros H. apply String.eqb_neq. exact H. Qed.

Ltac path_cases :=
  repeat match goal with
  | |- context [if ?c then _ else _] => destruct c eqn:?
  end.

(** X6.  A request that is not a [POST] and asks neither for the list of
    models nor for the event stream changes none of the server's
    variables, whatever its path and whatever the handler answers or
    throws; in particular an [OPTIONS] request never does.  (The two
    paths left out do write on a [GET]: [/api/models] may start the
    gateway, and [/api/events] adds the stream's controller to
    [clients].)  The endpoints that write on a [POST] — config, start,
    stop, working, persistent — answer a request of another method with
    404. *)
Theorem fetch_writes_only_on_post (a : Answers) (req : HttpRequest)
    (w : World) :
  req_method req <> "POST" ->
  (req_path req <> "/api/models" -> req_path req <> "/api/events" ->
   world_of (fetch a req w) = w)
  /\ (req_method req <> "OPTIONS" -> In (req_path req) writing_paths ->
      fetch a req w = Returned ReplyNotFound w).
Proof.
  intros Hpost. apply eqb_other in Hpost. split.
  - intros Hmodels Hevents. apply eqb_other in Hmodels, Hevents.
    unfold fetch. rewrite Hpost, Hmodels, Hevents, !andb_false_r.
    path_cases; try reflexivity.
    destruct (ans_page a); step; rewrite pass_quiet; reflexivity.
  - intros Hoptions Hpath. apply eqb_other in Hoptions.
    unfold fetch. rewrite Hpost, Hoptions, !andb_false_r.
    unfold writing_paths in Hpath. cbn [In] in Hpath.
    repeat (destruct Hpath as [<-|Hpath]; [reflexivity|]). contradiction.
Qed.

(** X6 at [GET /api/stop] and [OPTIONS /api/stop] while a loop runs. *)
Lemma fetch_writes_only_on_post_witness :
  let running_world := loop_entry world_with_gateway in
  fetch some_answers
    {| req_method := "GET"; req_path := "/api/stop";
       req_body := Resolves no_keys |} running_world
  = Returned ReplyNotFound running_world
  /\ world_of (fetch some_answers
                 {| req_method := "OPTIONS"; req_path := "/api/stop";
                    req_body := Resolves no_keys |} running_world)
     = running_world.
Proof.
  intros running_world. split.
  - exact (proj2 (fetch_writes_only_on_post some_answers
                    {| req_method := "GET"; req_path := "/api/stop";
                       req_body := Resolves no_keys |} running_world
                    ltac:(discriminate))
             ltac:(discriminate) ltac:(cbn; auto)).
  - exact (proj1 (fetch_writes_only_on_post some_answers
                    {| req_method := "OPTIONS"; req_path := "/api/stop";
                       req_body := Resolves no_keys |} running_world
                    ltac:(discriminate))
             ltac:(discriminate) ltac:(discriminate)).
Defined.

(** X7.  A [POST] to config, working or persistent whose body cannot be
    read as JSON makes the handler throw the error of [req.json()]
    before anything is written: no variable changes and nothing is
    broadcast. *)
Theorem fetch_unreadable_body (a : Answers) (path err : string) (w : World) :
  In path body_paths ->
  fetch a (post path (Rejects err)) w = Threw err w.
Proof.
  unfold body_paths. cbn [In]. intros Hpath.
  repeat (destruct Hpath as [<-|Hpath];
          [unfold fetch, post; cbn [req_method req_path req_body String.eqb
                                      Ascii.eqb Bool.eqb andb orb];
           step; rewrite pass_quiet; reflexivity|]).
  contradiction.
Qed.

(** X7 at [POST /api/config]. *)
Lemma fetch_unreadable_body_witness :
  fetch some_answers (post "/api/config" (Rejects "SyntaxError: JSON Parse error"))
    world_with_notes
  = Threw "SyntaxError: JSON Parse error" world_with_notes.
Proof.
  exact (fetch_unreadable_body some_answers "/api/config"
           "SyntaxError: JSON Parse error" world_with_notes
           ltac:(cbn; auto)).
Defined.

(** X8.  [POST /api/working] sets the working memory to the [working]
    key of the body, and to the empty string when the body has no such
    key; [POST /api/persistent] does the same for the persistent memory.
    Every other key of the body is ignored, every other field of the
    configuration and the whole run state stay as they were, and one
    [config] message with the new configuration is broadcast. *)
Theorem fetch_sets_memory (a : Answers) (body : ConfigPatch) (w : World) :
  (exists w',
     fetch a (post "/api/working" (Resolves body)) w = Returned ReplyOk w'
     /\ config w' = set_working (or_else (p_working body) "") (config w)
     /\ state w' = state w
     /\ published w' = (published w ++ [EvConfig (config w')])%list)
  /\ (exists w',
        fetch a (post "/api/persistent" (Resolves body)) w = Returned ReplyOk w'
        /\ config w' = set_persistent (or_else (p_persistent body) "") (config w)
        /\ state w' = state w
        /\ published w' = (published w ++ [EvConfig (config w')])%list)
  /\ (p_working body = None ->
      working (config (world_of (fetch a (post "/api/working" (Resolves body)) w)))
      = "").
Proof.
  split; [|split].
  - unfold fetch, post.
    cbn [req_method req_path req_body String.eqb Ascii.eqb Bool.eqb andb orb].
    step. rewrite pass_quiet. eexists. split; [reflexivity|].
    repeat split.
  - unfold fetch, post.
    cbn [req_method req_path req_body String.eqb Ascii.eqb Bool.eqb andb orb].
    step. rewrite pass_quiet. eexists. split; [reflexivity|].
    repeat split.
  - intros Hnone. unfold fetch, post.
    cbn [req_method req_path req_body String.eqb Ascii.eqb Bool.eqb andb orb].
    step. rewrite pass_quiet, Hnone. reflexivity.
Qed.

(** X8 at a body without keys, sent to a world that holds notes. *)
Lemma fetch_sets_memory_witness :
  working
    (config (world_of (fetch some_answers
                         (post "/api/working" (Resolves no_keys))
                         world_with_notes)))
  = "".
Proof.
  exact (proj2 (proj2 (fetch_sets_memory some_answers no_keys world_with_notes))
           eq_refl).
Defined.

(** ** Merging a body into the configuration *)

Lemma or_else_over {A : Type} (x y : option A) (d : A) :
  or_else y (or_else x d)
  = or_else (match y with Some v => Some v | None => x end) d.
Proof. destruct y; reflexivity. Qed.

(** X9.  Merging two bodies one after the other is merging the second
    laid over the first: for each key the later body wins, and a key in
    neither keeps the value the configuration had.  Merging the same
    body twice changes nothing more, and a body without keys changes
    nothing. *)
Theorem merge_composes (c : LoopConfig) (a b : ConfigPatch) :
  merge (merge c a) b = merge c (overlay a b)
  /\ merge (merge c a) a = merge c a
  /\ merge c no_keys = c.
Proof.
  split; [|split].
  - unfold merge, overlay.
    cbn [model system user working persistent monitor interval maxIterations
         autoApprove p_model p_system p_user p_working p_persistent p_monitor
         p_interval p_maxIterations p_autoApprove].
    rewrite !or_else_over. reflexivity.
  - unfold merge.
    cbn [model system user working persistent monitor interval maxIterations
         autoApprove].
    f_equal; match goal with |- or_else ?x _ = _ => destruct x; reflexivity end.
  - destruct c. reflexivity.
Qed.

(** ** The stop request *)

(** X10.  [POST /api/stop] turns the running flag off and aborts the
    controller if there is one; it broadcasts nothing and leaves the
    configuration, the counter and the history alone.  Served a second
    time it changes nothing.  After it the loop starts no iteration:
    whatever the script would answer, the [while] is left at once. *)
Theorem fetch_stop (a : Answers) (body : Attempt ConfigPatch) (w : World) :
  let w' := handle w PostStop in
  fetch a (post "/api/stop" body) w = Returned ReplyOk w'
  /\ fetch a (post "/api/stop" body) w' = Returned ReplyOk w'
  /\ running (state w') = false
  /\ (loopAbort w <> None -> loopAbort w' = Some true)
  /\ published w' = published w
  /\ config w' = config w
  /\ iteration (state w') = iteration (state w)
  /\ history (state w') = history (state w)
  /\ forall script, while_loop script w' = Returned tt w'.
Proof.
  intros w'. subst w'. split; [reflexivity|]. split.
  - unfold fetch, post.
    cbn [req_method req_path req_body String.eqb Ascii.eqb Bool.eqb andb orb].
    step. f_equal. destruct w as [s c sv cl ab pub con clk].
    destruct ab; reflexivity.
  - repeat split.
    + intros Hab. cbn. destruct (loopAbort w); [reflexivity | contradiction].
    + intros script. apply while_loop_idle. reflexivity.
Qed.

(** X10 at a world in which a loop has just been entered. *)
Lemma fetch_stop_witness :
  loopAbort (handle (loop_entry world_with_gateway) PostStop) = Some true.
Proof.
  destruct (fetch_stop some_answers (Resolves no_keys)
              (loop_entry world_with_gateway))
    as (_ & _ & _ & Haborted & _).
  exact (Haborted ltac:(discriminate)).
Defined.

(** ** The [stopped] message *)

Ltac stopped_leaf :=
  intros; unfold stopped_is in *; fields; autorewrite with world; fields;
  rewrite ?stopped_count_notices; rewrite ?stopped_count_snoc;
  cbn [is_stopped]; rewrite ?Nat.add_0_r; auto.

Lemma iteration_body_stopped (k : nat) (e : IterEnv) :
  hoare (stopped_is k) (iteration_body e)
    (fun _ => stopped_is k) (fun _ => stopped_is k) (stopped_is k).
Proof.
  unfold iteration_body, runMonitor, pace. invariant_walk; stopped_leaf.
Qed.

(** X11.  [runLoop] sends the [stopped] message exactly when it returns:
    a run that returns has sent it once, as its last message, and has
    the running flag off; a run that throws — the gateway not started,
    or a call outside a [try] rejecting — and a run that is still going
    have not sent it.  This holds whatever the gateway and the shell
    answer and whatever requests are served during the run. *)
Theorem runLoop_stopped_once (boot : Attempt string) (script : list IterEnv)
    (w : World) :
  match runLoop boot script w with
  | Returned _ w' =>
      stopped_count (published w') = S (stopped_count (published w))
      /\ (exists earlier, published w' = (earlier ++ [EvStopped])%list)
      /\ running (state w') = false
  | Threw _ w' => stopped_count (published w') = stopped_count (published w)
  | Parked w' => stopped_count (published w') = stopped_count (published w)
  end.
Proof.
  set (k := stopped_count (published w)).
  assert (H : hoare (stopped_is k) (runLoop boot script)
                (fun _ w' => stopped_count (published w') = S k
                             /\ (exists earlier,
                                   published w' = (earlier ++ [EvStopped])%list)
                             /\ running (state w') = false)
                (fun _ => stopped_is k) (stopped_is k)).
  { unfold runLoop, startOpenCode.
    do 8 (prefix_rule; [answered_walk; stopped_leaf|]).
    prefix_rule.
    { apply while_loop_invariant; [stopped_leaf|].
      intros e _. apply iteration_body_stopped. }
    apply hoare_bind
      with (R := fun _ w' => stopped_is k w' /\ running (state w') = false).
    - apply hoare_update. intros w1 Hw1. split; [stopped_leaf | reflexivity].
    - intros _. apply hoare_broadcast. intros w1 [Hk Hrun].
      unfold stopped_is in Hk. fields. rewrite stopped_count_snoc, Hk.
      cbn [is_stopped]. repeat split; [lia | eexists; reflexivity | exact Hrun]. }
  specialize (H w eq_refl). destruct (runLoop boot script w); exact H.
Qed.

(** ** The numbering of the iterations *)

Ltac numbered_leaf :=
  intros; unfold numbered in *;
  repeat match goal with H : _ /\ _ |- _ => destruct H end;
  fields; autorewrite with world; fields;
  rewrite ?iterations_announced_notices; rewrite ?iterations_announced_snoc;
  rewrite ?app_nil_r; auto.

Lemma iteration_body_numbered (l0 : list Z) (e : IterEnv) :
  hoare (numbered l0) (iteration_body e)
    (fun _ => numbered l0) (fun _ => numbered l0) (numbered l0).
Proof.
  unfold iteration_body.
  apply hoare_bind
    with (R := fun _ w =>
                 1 <= iteration (state w)
                 /\ iterations_announced (published w)
                    = (l0 ++ count_from 0 (Z.to_nat (iteration (state w) - 1)))%list).
  { apply hoare_update. intros w [Hpos Hl]. fields. split; [lia|].
    replace (iteration (state w) + 1 - 1) with (iteration (state w)) by lia.
    exact Hl. }
  intros _. apply hoare_bind with (R := fun _ => numbered l0).
  { apply hoare_broadcast. intros w [Hpos Hl]. unfold numbered. fields.
    split; [lia|]. rewrite iterations_announced_snoc, Hl, <- app_assoc.
    f_equal.
    replace (Z.to_nat (iteration (state w)))
      with (S (Z.to_nat (iteration (state w) - 1))) by lia.
    rewrite count_from_last. do 2 f_equal. lia. }
  intros _. unfold runMonitor, pace. invariant_walk; numbered_leaf.
Qed.

(** X12.  The iterations of one run are announced with the numbers 1,
    2, 3, ... without a gap and without a repeat, up to the value the
    counter has: at the end of the run, and wherever it stands or breaks
    off, the [iteration] messages it has sent are exactly those of 1 to
    the counter, in order — whatever fails in the iterations and
    whatever requests to stop, to configure or to write a memory are
    served during it.  This is the run of one [runLoop]: a start request
    served after a stop, while the run still waits, begins a second
    [runLoop] that numbers from 1 again over the same counter, and is
    not among the requests followed here. *)
Theorem iterations_numbered (boot : Attempt string) (script : list IterEnv)
    (w : World) :
  gateway_ready boot w = true ->
  let w' := world_of (runLoop boot script w) in
  0 <= iteration (state w')
  /\ iterations_announced (published w')
     = (iterations_announced (published w)
        ++ count_from 0 (Z.to_nat (iteration (state w'))))%list.
Proof.
  intros Hready w'. subst w'. rewrite (runLoop_ready _ _ _ Hready).
  apply (hoare_invariant (numbered (iterations_announced (published w)))).
  - unfold loop_exit.
    invariant_rule; [|invariant_walk; numbered_leaf].
    apply while_loop_invariant; [numbered_leaf|].
    intros e _. apply iteration_body_numbered.
  - unfold loop_entry, established.
    destruct (opencodeClient w); [|destruct boot]; numbered_leaf;
      (split; [lia | reflexivity]).
Qed.

(** X12 at a run whose first iteration gets no session and whose second
    gets no response. *)
Lemma iterations_numbered_witness :
  let w' := world_of (runLoop local_gateway
                        [session_refused; prompt_refused; answered "ok"]
                        initial_world) in
  0 <= iteration (state w')
  /\ iterations_announced (published w')
     = (iterations_announced (published initial_world)
        ++ count_from 0 (Z.to_nat (iteration (state w'))))%list.
Proof.
  exact (iterations_numbered local_gateway
           [session_refused; prompt_refused; answered "ok"] initial_world
           eq_refl).
Defined.

(** ** What the loop writes of the configuration *)

Lemma no_arrival_nil (p : Pause) : no_arrival p = true -> arrivals p = [].
Proof. unfold no_arrival. destruct (arrivals p); [reflexivity | discriminate]. Qed.

Lemma unvisited_pauses (e : IterEnv) :
  unvisited e = true ->
  arrivals (wait_monitor e) = [] /\ arrivals (wait_session e) = []
  /\ arrivals (wait_prompt e) = [] /\ arrivals (wait_sleep e) = [].
Proof.
  unfold unvisited. intros H.
  apply andb_prop in H as [H H4]. apply andb_prop in H as [H H3].
  apply andb_prop in H as [H1 H2]. auto using no_arrival_nil.
Qed.

Ltac config_leaf :=
  intros; fields; autorewrite with world; fields;
  repeat match goal with
  | H : arrivals _ = [] |- _ => rewrite H
  end;
  cbn [fold_left];
  try assumption;
  try (unfold same_but_working in *; fields; assumption).

Lemma iteration_body_config (c0 : LoopConfig) (e : IterEnv) :
  unvisited e = true ->
  hoare (fun w => same_but_working c0 (config w)) (iteration_body e)
    (fun _ w => same_but_working c0 (config w))
    (fun _ w => same_but_working c0 (config w))
    (fun w => same_but_working c0 (config w)).
Proof.
  intros He. apply unvisited_pauses in He as (Hm & Hs & Hp & Hsl).
  unfold iteration_body, runMonitor, pace. invariant_walk; config_leaf.
Qed.

(** X13.  Of the configuration the loop writes the working memory and
    nothing else.  Through a whole run during which no request is
    served — however it ends, whatever the gateway and the shell answer
    — the model, the system and user prompts, the persistent memory, the
    monitor command, the interval, the maximum and the approval flag
    are what they were at the start. *)
Theorem runLoop_keeps_configuration (boot : Attempt string)
    (script : list IterEnv) (w : World) :
  forallb unvisited script = true ->
  same_but_working (config w) (config (world_of (runLoop boot script w))).
Proof.
  intros Hscript.
  apply (hoare_invariant (fun w' => same_but_working (config w) (config w'))).
  - apply runLoop_invariant; try solve [config_leaf].
    intros e He. apply iteration_body_config.
    rewrite forallb_forall in Hscript. exact (Hscript e He).
  - repeat split.
Qed.

(** X13 at a run of two iterations from a world that holds notes. *)
Lemma runLoop_keeps_configuration_witness :
  same_but_working (config world_with_notes)
    (config (world_of (runLoop local_gateway [answered "a"; prompt_refused]
                         world_with_notes))).
Proof.
  exact (runLoop_keeps_configuration local_gateway
           [answered "a"; prompt_refused] world_with_notes eq_refl).
Defined.

(** ** A rejected session creation *)

Lemma iteration_body_session_rejects (k : nat) (err : string) (e : IterEnv) :
  env_session e = Rejects err ->
  stops (arrivals (wait_monitor e)) = false ->
  stops (arrivals (wait_session e)) = false ->
  hoare (fun w => running (state w) = true /\ stopped_is k w)
    (iteration_body e) (fun _ => never)
    (fun err' w => err' = err /\ running (state w) = true /\ stopped_is k w)
    never.
Proof.
  intros Hsession Hmon Hses.
  assert (Hleaf : forall p w,
            stops (arrivals p) = false ->
            running (state w) = true /\ stopped_is k w ->
            running (state (pass p w)) = true /\ stopped_is k (pass p w)).
  { intros p w Hp [Hrun Hk]. unfold stopped_is in *.
    autorewrite with world. fields. rewrite Hp, Hrun, stopped_count_notices.
    auto. }
  unfold iteration_body. rewrite Hsession.
  do 3 (prefix_rule;
        [unfold runMonitor; answered_walk;
         try solve [intros; apply Hleaf; assumption];
         intros w [Hrun Hk]; (split; [exact Hrun | stopped_leaf])|]).
  apply hoare_bind_await_rejects. intros w Hw.
  split; [reflexivity | apply Hleaf; assumption].
Qed.

(** X14.  A call of [session.create()] that rejects is outside every
    [try]: it ends the run where it stands.  [runLoop] throws the error,
    which the start handler prints; the [stopped] message is not sent
    and the running flag stays on — so that from then on every
    [POST /api/start] finds a loop "running" and does nothing. *)
Theorem session_rejection_strands_run (boot : Attempt string) (e : IterEnv)
    (rest : list IterEnv) (err : string) (w : World) :
  gateway_ready boot w = true ->
  running (state w) = false ->
  env_session e = Rejects err ->
  stops (arrivals (wait_monitor e)) = false ->
  stops (arrivals (wait_session e)) = false ->
  let w' := api_start boot (e :: rest) w in
  (exists w1, runLoop boot (e :: rest) w = Threw err w1 /\ w' = log_error err w1)
  /\ running (state w') = true
  /\ stopped_count (published w') = stopped_count (published w)
  /\ forall boot' script', api_start boot' script' w' = w'.
Proof.
  intros Hready Hidle Hsession Hmon Hses w'.
  assert (Hrun : exists w1,
            runLoop boot (e :: rest) w = Threw err w1
            /\ running (state w1) = true
            /\ stopped_count (published w1) = stopped_count (published w)).
  { rewrite (runLoop_ready _ _ _ Hready).
    destruct (loop_entry_steady boot w) as (Hr & Hab & _ & Hit & Hk & _).
    unfold bind at 1. rewrite (while_loop_head _ _ Hr Hab).
    unfold ceiling_reached. rewrite Hit.
    replace ((0 <? maxIterations (config (loop_entry (established boot w))))
             && (maxIterations (config (loop_entry (established boot w))) <=? 0))
      with false
      by (destruct (Z.ltb_spec 0 (maxIterations
                                   (config (loop_entry (established boot w)))));
          destruct (Z.leb_spec (maxIterations
                                  (config (loop_entry (established boot w)))) 0);
          cbn; lia || reflexivity).
    pose proof (iteration_body_session_rejects _ err e Hsession Hmon Hses
                  (loop_entry (established boot w)) (conj Hr Hk)) as Hbody.
    unfold bind. destruct (iteration_body e _) as [[] w1|err' w1|w1];
      try contradiction.
    destruct Hbody as (-> & Hr1 & Hk1). exists w1. auto. }
  destruct Hrun as (w1 & Hthrow & Hr1 & Hk1).
  assert (Hw' : w' = log_error err w1).
  { subst w'. unfold api_start. rewrite Hidle, Hthrow. reflexivity. }
  split; [exists w1; auto|]. rewrite Hw'. fields.
  repeat split; auto.
  intros boot' script'. unfold api_start. fields. rewrite Hr1. reflexivity.
Qed.

(** X14 at the initial world. *)
Lemma session_rejection_strands_run_witness :
  let w' := api_start local_gateway [session_breaks; answered "ok"]
              initial_world in
  running (state w') = true
  /\ stopped_count (published w') = 0%nat
  /\ api_start local_gateway [answered "ok"] w' = w'.
Proof.
  intros w'.
  destruct (session_rejection_strands_run local_gateway session_breaks
              [answered "ok"] "TypeError: fetch failed" initial_world
              eq_refl eq_refl eq_refl eq_refl eq_refl)
    as (_ & Hrunning & Hstopped & Hnoop).
  split; [exact Hrunning | split; [exact Hstopped | apply Hnoop]].
Defined.

(** ** What an iteration sends and records *)

Lemma prompts_sent_snoc (evs : list Event) (ev : Event) :
  prompts_sent (evs ++ [ev])
  = (prompts_sent evs
     ++ match ev with EvPrompt p n => [(p, n)] | _ => [] end)%list.
Proof.
  unfold prompts_sent. rewrite flat_map_app. cbn [flat_map].
  rewrite app_nil_r. reflexivity.
Qed.

Lemma responses_sent_snoc (evs : list Event) (ev : Event) :
  responses_sent (evs ++ [ev])
  = (responses_sent evs
     ++ match ev with EvResponse r n => [(r, n)] | _ => [] end)%list.
Proof.
  unfold responses_sent. rewrite flat_map_app. cbn [flat_map].
  rewrite app_nil_r. reflexivity.
Qed.

Lemma prompts_sent_notices (evs : list Event) (reqs : list Request)
    (c : LoopConfig) :
  prompts_sent (evs ++ notices reqs c) = prompts_sent evs.
Proof.
  unfold prompts_sent. rewrite flat_map_app.
  replace (flat_map _ (notices reqs c)) with (@nil (string * Z));
    [apply app_nil_r|].
  symmetry. revert c. induction reqs as [|r reqs IH]; intros c; [reflexivity|].
  cbn [notices]. rewrite flat_map_app, IH, app_nil_r.
  destruct (is_stop r); reflexivity.
Qed.

Lemma responses_sent_notices (evs : list Event) (reqs : list Request)
    (c : LoopConfig) :
  responses_sent (evs ++ notices reqs c) = responses_sent evs.
Proof.
  unfold responses_sent. rewrite flat_map_app.
  replace (flat_map _ (notices reqs c)) with (@nil (string * Z));
    [apply app_nil_r|].
  symmetry. revert c. induction reqs as [|r reqs IH]; intros c; [reflexivity|].
  cbn [notices]. rewrite flat_map_app, IH, app_nil_r.
  destruct (is_stop r); reflexivity.
Qed.

Lemma hoare_consequence {A : Type} (P P' : World -> Prop)
    (Q Q' : A -> World -> Prop) (E E' : string -> World -> Prop)
    (K K' : World -> Prop) (m : M A) :
  hoare P' m Q' E' K' ->
  (forall w, P w -> P' w) -> (forall a w, Q' a w -> Q a w) ->
  (forall err w, E' err w -> E err w) -> (forall w, K' w -> K w) ->
  hoare P m Q E K.
Proof.
  intros H HP HQ HE HK w Hw. specialize (H w (HP w Hw)).
  destruct (m w); auto.
Qed.

Ltac ledger_leaf :=
  intros; unfold ledger in *;
  repeat match goal with
  | H : _ /\ _ |- _ => destruct H
  | H : exists _, _ |- _ => destruct H
  end;
  try eexists;
  fields; autorewrite with world; fields;
  rewrite ?history_remember; cbn [remember]; fields;
  rewrite ?errors_reported_notices, ?prompts_sent_notices,
    ?responses_sent_notices;
  rewrite ?errors_reported_snoc, ?prompts_sent_snoc, ?responses_sent_snoc;
  rewrite ?app_nil_r; repeat split; try eassumption; try congruence.

Lemma timer_delay_positive (ms : Z) : 1 <= timer_delay ms.
Proof.
  unfold timer_delay.
  destruct (Z.leb_spec 1 ms); cbn [andb]; [|lia].
  destruct (Z.leb_spec ms 2147483647); lia.
Qed.

Lemma iteration_body_clock (c0 : Z) (e : IterEnv) :
  env_session e = Resolves None ->
  hoare (fun w => c0 <= clock w) (iteration_body e)
    (fun _ w => c0 < clock w) no_error never.
Proof.
  intros Hsession.
  assert (Hleaf : forall p w, c0 <= clock w -> c0 <= clock (pass p w)).
  { intros p w H. rewrite clock_pass. lia. }
  unfold iteration_body. rewrite Hsession.
  do 4 (prefix_rule;
        [try (unfold runMonitor; answered_walk);
         try solve [intros; apply Hleaf; assumption];
         intros; fields; assumption|]).
  unfold pace. apply hoare_bind with (R := fun _ w => c0 <= clock w).
  - apply hoare_broadcast. intros; fields; assumption.
  - intros _. apply hoare_bind with (R := fun _ w => c0 <= clock w).
    + apply hoare_reads. auto.
    + intros ms. apply hoare_sleep. intros w H. rewrite clock_pass. fields.
      pose proof (timer_delay_positive ms). lia.
Qed.



Lemma iteration_body_recorded (ps rs : list (string * Z))
    (errs : list (string * option Z)) (h : list HistoryEntry)
    (out : string) (sid : option string) (i : Z) (e : IterEnv) (id : string)
    (parts : list Part) :
  env_session e = Resolves (Some id) ->
  env_prompt e = Resolves (Some parts) ->
  hoare (ledger ps rs errs h out sid i) (iteration_body e)
    (fun _ w' =>
       exists prompt stamp,
         ledger (ps ++ [(prompt, i + 1)])
           (rs ++ [(extractResponse parts, i + 1)]) errs
           (capped (push h {| entry_iteration := i + 1;
                              entry_prompt := prompt;
                              entry_response := extractResponse parts;
                              entry_timestamp := stamp |}))
           (extractResponse parts) (Some id) (i + 1) w')
    no_error never.
Proof.
  intros Hsession Hprompt.
  set (recorded := fun prompt stamp =>
         ledger (ps ++ [(prompt, i + 1)])
           (rs ++ [(extractResponse parts, i + 1)]) errs
           (capped (push h {| entry_iteration := i + 1;
                              entry_prompt := prompt;
                              entry_response := extractResponse parts;
                              entry_timestamp := stamp |}))
           (extractResponse parts) (Some id) (i + 1)).
  change (hoare (ledger ps rs errs h out sid i) (iteration_body e)
            (fun _ w' => exists prompt stamp, recorded prompt stamp w')
            no_error never).
  unfold iteration_body. rewrite Hsession, Hprompt.
  apply hoare_bind with (R := fun _ => ledger ps rs errs h out sid (i + 1));
    [apply hoare_update; ledger_leaf | intros _].
  do 3 (prefix_rule;
        [try (unfold runMonitor; answered_walk); ledger_leaf|]).
  apply hoare_bind
    with (R := fun _ => ledger ps rs errs h out (Some id) (i + 1));
    [apply hoare_update; ledger_leaf | intros _].
  apply hoare_bind
    with (R := fun _ => ledger ps rs errs h out (Some id) (i + 1));
    [apply hoare_reads; auto | intros prompt].
  apply hoare_consequence
    with (P' := ledger ps rs errs h out (Some id) (i + 1))
         (Q' := fun _ w' => exists stamp, recorded prompt stamp w')
         (E' := no_error) (K' := never); eauto.
  apply hoare_bind
    with (R := fun _ => ledger (ps ++ [(prompt, i + 1)]) rs errs h out
                          (Some id) (i + 1));
    [apply hoare_broadcast; ledger_leaf | intros _].
  apply hoare_bind
    with (R := fun _ w' => exists stamp, recorded prompt stamp w').
  - apply hoare_try_catch with (E' := no_error); [|intros err w1 []].
    prefix_rule; [ledger_leaf|].
    apply hoare_bind
      with (R := fun _ => ledger (ps ++ [(prompt, i + 1)]) rs errs h
                            (extractResponse parts) (Some id) (i + 1));
      [apply hoare_update; ledger_leaf | intros _].
    apply hoare_bind
      with (R := fun _ w' =>
                   exists stamp,
                     ledger (ps ++ [(prompt, i + 1)]) rs errs
                       (capped (push h
                                  {| entry_iteration := i + 1;
                                     entry_prompt := prompt;
                                     entry_response := extractResponse parts;
                                     entry_timestamp := stamp |}))
                       (extractResponse parts) (Some id) (i + 1) w').
    + apply hoare_update. intros w1 Hw1. exists (clock w1).
      unfold ledger in *. fields. rewrite history_remember.
      cbn [remember]. fields.
      destruct Hw1 as (H & H0 & H1 & H2 & H3 & H4 & H5).
      repeat split; try assumption.
      rewrite H2, H5. reflexivity.
    + intros _. apply hoare_broadcast. unfold recorded. ledger_leaf.
  - intros _. unfold pace, recorded. invariant_walk; ledger_leaf.
Qed.



(** ** The monitor's result in the prompt *)

Lemma runMonitor_configured (e : IterEnv) (w : World) (command : string) :
  monitor (config w) = Some command ->
  runMonitor e w
  = Returned tt
      (send (EvMonitor (monitor_text (env_shell e)))
         (with_state (set_monitorOutput (monitor_text (env_shell e)))
            (pass (wait_monitor e) w))).
Proof.
  intros H. unfold runMonitor. rewrite bind_reads, H.
  destruct (env_shell e) as [[output stderr]|err]; step; reflexivity.
Qed.

Ltac shown_leaf :=
  intros; unfold monitor_shown in *;
  repeat match goal with H : _ /\ _ |- _ => destruct H end;
  fields; autorewrite with world; fields; cbn [remember]; fields;
  repeat split; try assumption; rewrite ?in_app_iff; auto.



(** ** What the [state] messages of a run show *)

Lemma unstopped_pauses (e : IterEnv) :
  unstopped e = true ->
  stops (arrivals (wait_monitor e)) = false
  /\ stops (arrivals (wait_session e)) = false
  /\ stops (arrivals (wait_prompt e)) = false
  /\ stops (arrivals (wait_sleep e)) = false.
Proof.
  unfold unstopped. intros H.
  apply andb_prop in H as [H Hsl]. apply andb_prop in H as [H Hp].
  apply andb_prop in H as [Hm Hs].
  repeat split; apply negb_true_iff; assumption.
Qed.

Ltac fields_in H :=
  cbn [state config opencodeServer opencodeClient loopAbort published
       console_error clock send with_state with_config advance set_loopAbort
       set_gateway log_error running iteration sessionID lastOutput
       monitorOutput history set_running set_iteration set_sessionID
       set_lastOutput set_monitorOutput set_history model system user working
       persistent monitor interval maxIterations autoApprove set_working
       set_persistent world_of entry_iteration entry_prompt entry_response
       entry_timestamp] in H.

Ltac reports_leaf :=
  let Hin := fresh "Hin" in
  intros ? Hin; fields_in Hin; autorewrite with world in Hin; fields_in Hin;
  rewrite ?in_app_iff in Hin; cbn [In] in Hin;
  repeat (destruct Hin as [Hin|Hin]);
  first [ solve [eauto] | discriminate Hin | contradiction
        | apply notices_config in Hin as [? Hin]; discriminate Hin
        | injection Hin as <-; right; fields; solve [auto] ].

Ltac going_leaf :=
  intros; unfold going, reports_running in *;
  repeat match goal with H : _ /\ _ |- _ => destruct H end;
  repeat split;
  [ fields; autorewrite with world; fields; cbn [remember]; fields;
    repeat match goal with H : stops _ = false |- _ => rewrite H end;
    cbn [negb]; rewrite ?andb_true_r; assumption
  | fields; autorewrite with world; fields;
    repeat match goal with H : stops _ = false |- _ => rewrite H end;
    assumption
  | reports_leaf ].

Lemma iteration_body_going (w0 : World) (e : IterEnv) :
  unstopped e = true ->
  hoare (going w0) (iteration_body e)
    (fun _ => going w0) (fun _ => going w0) (going w0).
Proof.
  intros He. apply unstopped_pauses in He as (Hm & Hs & Hp & Hsl).
  unfold iteration_body, runMonitor, pace. invariant_walk; going_leaf.
Qed.

Lemma while_loop_going (w0 : World) (script : list IterEnv) :
  forallb unstopped script = true ->
  hoare (going w0) (while_loop script) (fun _ => reports_running w0)
    (fun _ => reports_running w0) (reports_running w0).
Proof.
  induction script as [|e rest IH]; intros Hscript w Hw;
    pose proof Hw as (Hrun & Hab & Hrep);
    rewrite (while_loop_head _ _ Hrun Hab);
    (destruct (ceiling_reached w); [exact Hrep|]).
  - exact Hrep.
  - cbn [forallb] in Hscript. apply andb_prop in Hscript as [He Hrest].
    assert (Hseq : hoare (going w0) (iteration_body e ;; while_loop rest)
              (fun _ => reports_running w0) (fun _ => reports_running w0)
              (reports_running w0)).
    { apply hoare_bind with (R := fun _ => going w0);
        [|intros _; exact (IH Hrest)].
      apply hoare_consequence
        with (P' := going w0) (Q' := fun _ => going w0)
             (E' := fun _ => going w0) (K' := going w0);
        [apply iteration_body_going; exact He | auto | auto | |];
        intros; match goal with H : going _ _ |- _ => apply H end. }
    exact (Hseq w Hw).
Qed.

(** X18.  A run started with the gateway ready, during which no stop
    request is served, never reports itself idle in a [state] message:
    every [state] message it sends shows the running flag on, also in a
    run that ends at its maximum — the flag is put off after the last
    [state] message, and only the [stopped] message tells the
    subscribers. *)
Theorem run_never_reports_idle (boot : Attempt string)
    (script : list IterEnv) (w : World) :
  gateway_ready boot w = true ->
  forallb unstopped script = true ->
  forall s, In (EvState s) (published (world_of (runLoop boot script w))) ->
    In (EvState s) (published w) \/ running s = true.
Proof.
  intros Hready Hscript. rewrite (runLoop_ready _ _ _ Hready).
  assert (Hentry : going w (loop_entry (established boot w))).
  { unfold going, reports_running, loop_entry, established.
    destruct (opencodeClient w); [|destruct boot];
      (repeat split; [reports_leaf]). }
  assert (Hrun : hoare (going w) (while_loop script ;; loop_exit)
            (fun _ => reports_running w) (fun _ => reports_running w)
            (reports_running w)).
  { apply hoare_bind with (R := fun _ => reports_running w);
      [apply while_loop_going; exact Hscript | intros _].
    unfold loop_exit.
    invariant_walk; intros w1 Hw1; unfold reports_running in *; reports_leaf. }
  specialize (Hrun _ Hentry).
  destruct ((while_loop script ;; loop_exit) _); exact Hrun.
Qed.

(** X18 for a run of two iterations that ends at its maximum. *)
Lemma run_never_reports_idle_witness :
  Forall (fun ev => match ev with
                    | EvState s => running s = true
                    | _ => True
                    end)
    (published (world_of (runLoop local_gateway [answered "a"; answered "b"]
                            (world_with_maximum 2)))).
Proof.
  apply Forall_forall. intros ev Hin.
  destruct ev as [s| | | | | | |]; try exact I.
  destruct (run_never_reports_idle local_gateway [answered "a"; answered "b"]
              (world_with_maximum 2) eq_refl eq_refl s Hin) as [Hold|Hs].
  - cbn in Hold. destruct Hold as [Hold|[]]. discriminate Hold.
  - exact Hs.
Defined.

(** ** A stop request while the prompt is out *)

Lemma iteration_body_halted (e : IterEnv) (w0 : World) (id : string) :
  env_session e = Resolves (Some id) ->
  stops (arrivals (wait_monitor e)) = false ->
  stops (arrivals (wait_session e)) = false ->
  stops (arrivals (wait_prompt e)) = true ->
  hoare (fun w => running (state w) = true /\ clock w = clock w0
                  /\ monitor (config w) = monitor (config w0))
    (iteration_body e)
    (fun _ => halted_at (clock w0 + monitor_wait e w0
                         + Z.of_nat (elapsed (wait_session e))
                         + Z.of_nat (elapsed (wait_prompt e))))
    no_error never.
Proof.
  intros Hsession Hm Hs Hp.
  set (c1 := clock w0 + monitor_wait e w0).
  set (c2 := c1 + Z.of_nat (elapsed (wait_session e))).
  set (c3 := c2 + Z.of_nat (elapsed (wait_prompt e))).
  unfold iteration_body. rewrite Hsession.
  do 2 (prefix_rule;
        [first [apply hoare_update | apply hoare_broadcast];
         intros w1 Hw1; exact Hw1|]).
  apply hoare_bind
    with (R := fun _ w => running (state w) = true /\ clock w = c1).
  { intros w1 (Hr & Hc & Hmon). unfold c1, monitor_wait.
    destruct (monitor (config w0)) as [command|].
    - rewrite (runMonitor_configured e w1 command Hmon). fields.
      autorewrite with world. fields. rewrite Hr, Hm. split; [reflexivity|lia].
    - rewrite (runMonitor_unconfigured e w1 Hmon). split; [exact Hr | lia]. }
  intros _.
  apply hoare_bind_await_resolves
    with (P' := fun w => running (state w) = true /\ clock w = c2).
  { intros w1 (Hr & Hc). autorewrite with world. fields.
    rewrite Hr, Hs. split; [reflexivity | unfold c2; lia]. }
  cbv beta iota.
  do 3 (prefix_rule;
        [first [apply hoare_update | apply hoare_broadcast | apply hoare_reads];
         intros w1 Hw1; exact Hw1|]).
  apply hoare_bind with (R := fun _ => halted_at c3).
  { apply hoare_try_catch with (E' := fun _ => halted_at c3).
    - apply hoare_bind with (R := fun _ => halted_at c3).
      + apply hoare_await; intros x w1 _ (Hr & Hc); unfold halted_at;
          autorewrite with world; fields; rewrite Hr, Hp;
          (split; [reflexivity | unfold c3; lia]).
      + intros [parts|]; invariant_walk; intros w1 Hw1; exact Hw1.
    - intros err. apply hoare_broadcast. intros w1 Hw1. exact Hw1. }
  intros _.
  do 2 (prefix_rule;
        [first [apply hoare_update | apply hoare_broadcast];
         intros w1 Hw1; exact Hw1|]).
  apply hoare_bind with (R := fun go w => go = false /\ halted_at c3 w).
  { apply hoare_reads. intros w1 Hw1. split; [apply Hw1 | exact Hw1]. }
  intros [|].
  - intros w1 (Hgo & _). discriminate Hgo.
  - apply hoare_ret. intros w1 (_ & Hw1). exact Hw1.
Qed.



